(** * The Hadamard provider tutorial, embedded in Rocq

    Source: [qiskit/terra/creating_a_provider.ipynb].  The notebook defines

    - [run_hadamard_simulator], a brute-force enumeration over basis states;
    - [HadamardJob], a job whose methods do nothing;
    - [HadamardSimulator], the backend whose [run] feeds a qobj to the
      simulator and packs the counts into a result;
    - [HadamardProvider], whose [backends] filters a one-element list.

    Python integers are [Z]; Python lists are [list] with indexing written
    out (negative indices, [IndexError]); a Python [str] that is indexed or
    sliced is a [list ascii], one that is a name or a dictionary key is a
    [string]; the dictionary of counts is a [gmap string Z]; a call that can
    raise returns an [outcome]. *)

From Stdlib Require Import ZArith Ascii String.
From stdpp Require Import gmap strings list fin_maps.

Local Open Scope Z_scope.

(** ** Exceptions and the outcome of a call *)

(** [NameError] carries the name that is not defined. *)
Inductive exn : Type :=
| IndexError
| TypeError
| OverflowError
| AttributeError
| NameError (name : string).

Inductive outcome (A : Type) : Type :=
| Returns (a : A)
| Raises (e : exn).
Arguments Returns {A} a.
Arguments Raises {A} e.

Definition bind {A B : Type} (c : outcome A) (k : A -> outcome B) : outcome B :=
  match c with
  | Returns a => k a
  | Raises e => Raises e
  end.

Notation "'let!' x ':=' c 'in' k" := (bind c (fun x => k))
  (at level 10, x name, c at level 100, k at level 200).

Definition returns {A : Type} (c : outcome A) : Prop := exists a, c = Returns a.
Definition raises {A : Type} (c : outcome A) : Prop := exists e, c = Raises e.

(** ** Python lists *)

(** The position a Python index denotes in a sequence of length [len]:
    a negative index counts from the end. *)
Definition norm_index (len i : Z) : option nat :=
  let j := if i <? 0 then i + len else i in
  if (0 <=? j) && (j <? len) then Some (Z.to_nat j) else None.

(** [l[i]] *)
Definition getitem {A : Type} (l : list A) (i : Z) : outcome A :=
  match norm_index (Z.of_nat (length l)) i with
  | Some j => match l !! j with
              | Some x => Returns x
              | None => Raises IndexError
              end
  | None => Raises IndexError
  end.

(** [l[i] = v] *)
Definition setitem {A : Type} (l : list A) (i : Z) (v : A) : outcome (list A) :=
  match norm_index (Z.of_nat (length l)) i with
  | Some j => Returns (<[j:=v]> l)
  | None => Raises IndexError
  end.

(** [[x]*n]: empty when [n <= 0]. *)
Definition list_mul {A : Type} (x : A) (n : Z) : list A := replicate (Z.to_nat n) x.

(** [range(n)] *)
Definition range (n : Z) : list Z := Z.of_nat <$> seq 0 (Z.to_nat n).

(** [l.count(x)] *)
Definition count (x : Z) (l : list Z) : Z :=
  Z.of_nat (length (filter (fun y => y = x) l)).

(** ** [int(a / 2**e)]

    In Python 3 [a / b] on two integers is true division: the result is the
    float nearest to the exact quotient (ties to even), and [OverflowError]
    is raised when that float is not finite.  The only division of the
    notebook has a power of two as its divisor, so the quotient rounded to
    53 significant bits is the dividend rounded to 53 significant bits,
    scaled; [int] then truncates towards zero.  (Below [2**-1022] a float
    has fewer bits, but there the quotient is below 1 and [int] gives 0 in
    any case.) *)
Definition round_to_53_bits (a : Z) : Z :=
  let s := Z.log2 a + 1 - 53 in
  if s <=? 0 then a
  else
    let q := Z.shiftr a s in
    let r := Z.land a (Z.ones s) in
    let half := Z.shiftl 1 (s - 1) in
    Z.shiftl (if (half <? r) || ((r =? half) && Z.odd q) then q + 1 else q) s.

Definition int_truediv_pow2 (a e : Z) : outcome Z :=
  let m := round_to_53_bits (Z.abs a) in
  if 2 ^ (1024 + e) <=? m then Raises OverflowError
  else Returns (Z.sgn a * (m / 2 ^ e)).

(** ** Python strings used by the simulator *)

Definition digit (b : bool) : ascii := if b then "1"%char else "0"%char.

(** Binary digits of a positive number, most significant first, in front
    of [acc]. *)
Fixpoint pos_bin (p : positive) (acc : list ascii) : list ascii :=
  match p with
  | xH => digit true :: acc
  | xO p' => pos_bin p' (digit false :: acc)
  | xI p' => pos_bin p' (digit true :: acc)
  end.

(** ['{0:b}'.format(i)] *)
Definition format_b (i : Z) : list ascii :=
  match i with
  | Z0 => [digit false]
  | Zpos p => pos_bin p []
  | Zneg p => "-"%char :: pos_bin p []
  end.

(** [s.zfill(width)]: zeros are added on the left, after a leading sign. *)
Definition zfill (s : list ascii) (width : Z) : list ascii :=
  let pad := replicate (Z.to_nat (width - Z.of_nat (length s))) "0"%char in
  match s with
  | c :: s' =>
      if bool_decide (c = "+"%char \/ c = "-"%char) then c :: pad ++ s'
      else pad ++ s
  | [] => pad
  end.

(** ** [run_hadamard_simulator] *)

(** [for qubit in list_of_qubits:
       hadamard_list[qubit] = (1 + hadamard_list[qubit])%2] *)
Fixpoint parity_loop (list_of_qubits : list Z) (hadamard_list : list Z)
  : outcome (list Z) :=
  match list_of_qubits with
  | [] => Returns hadamard_list
  | qubit :: rest =>
      let! h := getitem hadamard_list qubit in
      let! hadamard_list' := setitem hadamard_list qubit ((1 + h) mod 2) in
      parity_loop rest hadamard_list'
  end.

(** The body of [for qubit in range(number_of_qubits)], for the basis
    state of index [i]; [qubits] is what is left of the range.  The
    [break] ends the loop with [result[i] = 0]. *)
Fixpoint qubit_loop (hadamard_list : list Z) (basis_state : list ascii)
    (shots i : Z) (qubits : list Z) (result : list Z) : outcome (list Z) :=
  match qubits with
  | [] => Returns result
  | qubit :: rest =>
      let! h := getitem hadamard_list qubit in
      let! blocked :=
        (if h =? 0
         then let! c := getitem basis_state qubit in
              Returns (bool_decide (c = "1"%char))
         else Returns false) in
      if (blocked : bool) then setitem result i 0
      else
        let! h' := getitem hadamard_list qubit in
        if h' =? 1 then
          let! old := getitem result i in
          let! term := int_truediv_pow2 shots (1 + count 1 hadamard_list) in
          let! result' := setitem result i (old + term) in
          qubit_loop hadamard_list basis_state shots i rest result'
        else qubit_loop hadamard_list basis_state shots i rest result
  end.

(** ['{0:b}'.format(i).zfill(number_of_qubits)[::-1]] *)
Definition basis_state_of (number_of_qubits i : Z) : list ascii :=
  reverse (zfill (format_b i) number_of_qubits).

(** [for i in range(2**number_of_qubits)]; [indices] is what is left of
    the range. *)
Fixpoint basis_loop (number_of_qubits : Z) (hadamard_list : list Z) (shots : Z)
    (indices : list Z) (result : list Z) : outcome (list Z) :=
  match indices with
  | [] => Returns result
  | i :: rest =>
      let basis_state := basis_state_of number_of_qubits i in
      let! result' := qubit_loop hadamard_list basis_state shots i
                        (range number_of_qubits) result in
      basis_loop number_of_qubits hadamard_list shots rest result'
  end.

(** For a negative exponent [2**number_of_qubits] is a float, and a list
    cannot be multiplied by a float.  (A negative [number_of_qubits] too
    large for the index of a list, below [-2**31] on a machine of 32 bits,
    makes [[0]*number_of_qubits] itself raise; the definition leaves that
    out, and what is proved of a negative [number_of_qubits] is proved
    from [-2**31] on.) *)
Definition run_hadamard_simulator (number_of_qubits : Z) (list_of_qubits : list Z)
    (shots : Z) : outcome (list Z) :=
  let! hadamard_list := parity_loop list_of_qubits (list_mul 0 number_of_qubits) in
  if number_of_qubits <? 0 then Raises TypeError
  else
    let result := list_mul 0 (2 ^ number_of_qubits) in
    basis_loop number_of_qubits hadamard_list shots
      (range (2 ^ number_of_qubits)) result.

(** ** [hex(i)] *)

Definition hex_table : list ascii :=
  ["0"; "1"; "2"; "3"; "4"; "5"; "6"; "7"; "8"; "9"; "a"; "b"; "c"; "d"; "e"; "f"]%char.

Definition hex_digit (d : Z) : ascii := nth (Z.to_nat d) hex_table "0"%char.

(** Hexadecimal digits of [n >= 0], most significant first; [fuel] bounds
    the number of digits after the first. *)
Fixpoint hex_digits (fuel : nat) (n : Z) : list ascii :=
  match fuel with
  | O => [hex_digit n]
  | S fuel' =>
      if n <? 16 then [hex_digit n]
      else hex_digits fuel' (n / 16) ++ [hex_digit (n mod 16)]
  end.

Definition hex_chars (i : Z) : list ascii :=
  (if i <? 0 then ["-"%char] else [])
  ++ ["0"; "x"]%char
  ++ hex_digits (Z.to_nat (Z.log2 (Z.abs i))) (Z.abs i).

Definition hex (i : Z) : string := string_of_list_ascii (hex_chars i).

(** ** The data the backend reads and writes

    These classes belong to the SDK; the records keep the fields the
    notebook touches. *)

(** [conditional] is the attribute of that name when the instruction has
    one (the index of the register it is conditioned on). *)
Record QobjInstruction : Type := {
  name : string;
  qubits : list Z;
  conditional : option Z
}.

Record QobjHeader : Type := {
  header_name : string;
  header_fields : list (string * string)
}.

Definition as_dict (h : QobjHeader) : list (string * string) :=
  ("name", header_name h) :: header_fields h.

Record QobjExperiment : Type := {
  config_n_qubits : Z;
  instructions : list QobjInstruction;
  header : QobjHeader
}.

Record Qobj : Type := {
  experiments : list QobjExperiment;
  config_shots : Z
}.

Record ExperimentResult : Type := {
  er_name : string;
  er_success : bool;
  er_shots : Z;
  er_counts : gmap string Z;
  er_header : list (string * string)
}.

Record Result : Type := {
  results : list ExperimentResult;
  backend_name : string;
  backend_version : string;
  qobj_id : string;
  job_id : string;
  success : bool
}.

Record GateConfig : Type := {
  gate_name : string;
  gate_parameters : list string;
  gate_qasm_def : string
}.

Record BackendConfiguration : Type := {
  cfg_backend_name : string;
  cfg_backend_version : string;
  cfg_url : string;
  cfg_simulator : bool;
  cfg_local : bool;
  cfg_description : string;
  cfg_basis_gates : list string;
  cfg_memory : bool;
  cfg_n_qubits : Z;
  cfg_conditional : bool;
  cfg_max_shots : Z;
  cfg_open_pulse : bool;
  cfg_gates : list GateConfig
}.

(** The provider a backend belongs to; the notebook has one provider
    class, and a backend built by it points back to it. *)
Inductive provider_ref : Type := TheHadamardProvider.

Record HadamardSimulator : Type := {
  _configuration : BackendConfiguration;
  _provider : option provider_ref
}.

(** ** [HadamardJob] *)

(** [_backend] and [_job_id] are set by [BaseJob.__init__]; [_result]
    exists once [run] has assigned it. *)
Record HadamardJob : Type := {
  _backend : option HadamardSimulator;
  _job_id : Z;
  _result : option Result
}.

(** What a method of the job hands back. *)
Inductive returned : Type :=
| PyNone
| PyResult (r : Result).

Module HadamardJob_.

(** [super().__init__(backend, 1)] *)
Definition __init__ (backend : option HadamardSimulator) : HadamardJob :=
  {| _backend := backend; _job_id := 1; _result := None |}.

(** [return self._result] *)
Definition result (self : HadamardJob) : outcome (returned * HadamardJob) :=
  match _result self with
  | Some r => Returns (PyResult r, self)
  | None => Raises AttributeError
  end.

(** [pass] *)
Definition cancel (self : HadamardJob) : outcome (returned * HadamardJob) :=
  Returns (PyNone, self).

Definition status (self : HadamardJob) : outcome (returned * HadamardJob) :=
  Returns (PyNone, self).

Definition submit (self : HadamardJob) : outcome (returned * HadamardJob) :=
  Returns (PyNone, self).

End HadamardJob_.

(** ** [HadamardSimulator] *)

(** Python's truth value of [getattr(operation, 'conditional', None)]:
    [None] (no such attribute) and 0 are false. *)
Definition truthy (v : option Z) : bool :=
  match v with
  | Some c => negb (c =? 0)
  | None => false
  end.

(** [for operation in circuit.instructions]: [list_of_qubits] grows by
    [operation.qubits[0]] for each Hadamard gate.  No cell of the notebook
    imports or defines [QiskitError], so each of the two
    [raise QiskitError(...)] statements raises [NameError] when it looks
    the name up, before any message is built. *)
Fixpoint instruction_loop (operations : list QobjInstruction)
    (list_of_qubits : list Z) : outcome (list Z) :=
  match operations with
  | [] => Returns list_of_qubits
  | operation :: rest =>
      if truthy (conditional operation) then Raises (NameError "QiskitError")
      else if negb (bool_decide (name operation = "h")) then
        if bool_decide (name operation = "measure")
        then instruction_loop rest list_of_qubits
        else Raises (NameError "QiskitError")
      else
        let! qubit := getitem (qubits operation) 0 in
        instruction_loop rest (list_of_qubits ++ [qubit])
  end.

(** [for i in range(2**number_of_qubits):
       if counts[i] != 0: formatted_counts[hex(i)] = counts[i]] *)
Fixpoint format_loop (counts : list Z) (indices : list Z)
    (formatted_counts : gmap string Z) : outcome (gmap string Z) :=
  match indices with
  | [] => Returns formatted_counts
  | i :: rest =>
      let! c := getitem counts i in
      if negb (c =? 0) then
        let! c' := getitem counts i in
        format_loop counts rest (<[hex i := c']> formatted_counts)
      else format_loop counts rest formatted_counts
  end.

(** The part of the loop body of [run] that follows the collection of
    [list_of_qubits]. *)
Definition simulate_circuit (qobj : Qobj) (circuit : QobjExperiment)
    (list_of_qubits : list Z) : outcome ExperimentResult :=
  let number_of_qubits := config_n_qubits circuit in
  let shots := config_shots qobj in
  let! counts := run_hadamard_simulator number_of_qubits list_of_qubits shots in
  let! formatted_counts :=
    format_loop counts (range (2 ^ number_of_qubits)) ∅ in
  Returns {| er_name := header_name (header circuit);
             er_success := true;
             er_shots := shots;
             er_counts := formatted_counts;
             er_header := as_dict (header circuit) |}.

(** [for circuit_index, circuit in enumerate(qobj.experiments)] *)
Fixpoint experiment_loop (qobj : Qobj) (circuits : list QobjExperiment)
    (experiment_results : list ExperimentResult) : outcome (list ExperimentResult) :=
  match circuits with
  | [] => Returns experiment_results
  | circuit :: rest =>
      let! list_of_qubits := instruction_loop (instructions circuit) [] in
      let! experiment_result := simulate_circuit qobj circuit list_of_qubits in
      experiment_loop qobj rest (experiment_results ++ [experiment_result])
  end.

(** [Result.from_dict] of the dictionary [run] builds. *)
Definition Result_of (experiment_results : list ExperimentResult) : Result :=
  {| results := experiment_results;
     backend_name := "hadamard_simulator";
     backend_version := "0.1.0";
     qobj_id := "0";
     job_id := "0";
     success := true |}.

Module HadamardSimulator_.

Definition configuration : BackendConfiguration :=
  {| cfg_backend_name := "hadamard_simulator";
     cfg_backend_version := "0.1.0";
     cfg_url := "http://www.i_love_hadamard.com";
     cfg_simulator := true;
     cfg_local := true;
     cfg_description := "Simulates only Hadamard gates";
     cfg_basis_gates := ["h"; "x"];
     cfg_memory := true;
     cfg_n_qubits := 30;
     cfg_conditional := false;
     cfg_max_shots := 100000;
     cfg_open_pulse := false;
     cfg_gates := [ {| gate_name := "TODO"; gate_parameters := [];
                       gate_qasm_def := "TODO" |} ] |}.

Definition __init__ (provider : option provider_ref) : HadamardSimulator :=
  {| _configuration := configuration; _provider := provider |}.

(** [BaseBackend.name]: the configuration's [backend_name]. *)
Definition name (self : HadamardSimulator) : string :=
  cfg_backend_name (_configuration self).

Definition run (self : HadamardSimulator) (qobj : Qobj) : outcome HadamardJob :=
  let hadamard_job := HadamardJob_.__init__ None in
  let! experiment_results := experiment_loop qobj (experiments qobj) [] in
  Returns {| _backend := _backend hadamard_job;
             _job_id := _job_id hadamard_job;
             _result := Some (Result_of experiment_results) |}.

End HadamardSimulator_.

(** ** [HadamardProvider] *)

Record HadamardProvider : Type := {
  _backends : list HadamardSimulator
}.

(** Python's truth value of the [name] argument: [None] and the empty
    string are false. *)
Definition name_given (name : option string) : bool :=
  match name with
  | Some s => negb (bool_decide (s = ""))
  | None => false
  end.

Section Provider.

(** [filter_backends] is the SDK's; it is given the list, the [filters]
    argument and the keyword arguments, and hands back a list. *)
Context {kwargs : Type}.
Variable filter_backends :
  list HadamardSimulator -> option (HadamardSimulator -> bool) -> kwargs ->
  list HadamardSimulator.

Definition HadamardProvider_init : HadamardProvider :=
  {| _backends := [HadamardSimulator_.__init__ (Some TheHadamardProvider)] |}.

(** The method hands back its value and the provider as the call
    leaves it. *)
Definition HadamardProvider_backends (self : HadamardProvider)
    (name : option string) (filters : option (HadamardSimulator -> bool))
    (kw : kwargs) : list HadamardSimulator * HadamardProvider :=
  let backends := _backends self in
  let backends :=
    if name_given name
    then filter (fun backend => Some (HadamardSimulator_.name backend) = name) backends
    else backends in
  (filter_backends backends filters kw, self).

End Provider.

(** [filter_backends] as the SDK has it when no keyword argument is
    passed: the backends [filters] accepts, all of them when it is
    [None]. *)
Definition filter_backends_sdk (backends : list HadamardSimulator)
    (filters : option (HadamardSimulator -> bool)) (kw : unit)
  : list HadamardSimulator :=
  match filters with
  | Some f => List.filter f backends
  | None => backends
  end.

(** ** Notions the statements use *)

(** Whether [q] appears an odd number of times in [list_of_qubits]. *)
Definition odd_qubit (list_of_qubits : list Z) (q : Z) : bool :=
  Z.odd (count q list_of_qubits).

(** The number of qubits below [number_of_qubits] that appear an odd
    number of times. *)
Definition odd_qubits (number_of_qubits : Z) (list_of_qubits : list Z) : Z :=
  Z.of_nat (length (filter (fun q => odd_qubit list_of_qubits q = true)
                      (range number_of_qubits))).

(** Every 1-bit of [i] below [number_of_qubits] lies on a qubit that
    appears an odd number of times. *)
Definition compatible (number_of_qubits : Z) (list_of_qubits : list Z) (i : Z) : bool :=
  forallb (fun q => implb (Z.testbit i q) (odd_qubit list_of_qubits q))
    (range number_of_qubits).

Definition valid_qubits (number_of_qubits : Z) (list_of_qubits : list Z) : Prop :=
  Forall (fun q => 0 <= q < number_of_qubits) list_of_qubits.

(** The value the inner loop leaves in [result[i]] when it started from
    [acc], over the qubits [qs], each odd qubit adding [t]. *)
Definition entry_after (list_of_qubits : list Z) (i t acc : Z) (qs : list Z) : Z :=
  if forallb (fun q => implb (Z.testbit i q) (odd_qubit list_of_qubits q)) qs
  then acc + t * Z.of_nat (length (filter (fun q => odd_qubit list_of_qubits q = true) qs))
  else 0.

(** The count the simulator gives to the basis state of index [i] when
    each odd qubit adds [t]. *)
Definition entry (number_of_qubits : Z) (list_of_qubits : list Z) (t i : Z) : Z :=
  if compatible number_of_qubits list_of_qubits i
  then odd_qubits number_of_qubits list_of_qubits * t
  else 0.

(** Binary digits of a positive number, least significant first. *)
Fixpoint pos_bits (p : positive) : list bool :=
  match p with
  | xH => [true]
  | xO p' => false :: pos_bits p'
  | xI p' => true :: pos_bits p'
  end.

Definition bits_msb (i : Z) : list bool :=
  match i with
  | Z0 => [false]
  | Zpos p => reverse (pos_bits p)
  | Zneg _ => []
  end.

(** The number a string of hexadecimal digits denotes. *)
Definition hex_digit_value (c : ascii) : Z :=
  from_option (fun p => Z.of_nat p.1) 0 (list_find (fun x => x = c) hex_table).

Definition hex_value (s : list ascii) : Z :=
  fold_left (fun v c => 16 * v + hex_digit_value c) s 0.

(** An instruction [run] rejects: its [conditional] attribute is true, or
    its name is neither ['h'] nor ['measure']. *)
Definition unsupported (operation : QobjInstruction) : Prop :=
  truthy (conditional operation) = true
  \/ (name operation <> "h" /\ name operation <> "measure").

Definition has_unsupported (qobj : Qobj) : Prop :=
  Exists (fun circuit => Exists unsupported (instructions circuit))
    (experiments qobj).

(** A circuit whose Hadamard gates act on a qubit of the circuit. *)
Definition well_formed_circuit (circuit : QobjExperiment) : Prop :=
  0 <= config_n_qubits circuit
  /\ Forall (fun operation =>
               name operation = "h" ->
               exists q, head (qubits operation) = Some q
                         /\ 0 <= q < config_n_qubits circuit)
       (instructions circuit).

(** The first target qubit of each Hadamard gate, in the order of the
    instructions. *)
Definition hadamard_targets (operations : list QobjInstruction) : list Z :=
  omap (fun operation =>
          if bool_decide (name operation = "h") then head (qubits operation)
          else None)
    operations.

(** The dictionary [d] holds the nonzero entries of [counts], each under
    the hexadecimal form of its index, and nothing else. *)
Definition nonzero_counts (counts : list Z) (d : gmap string Z) : Prop :=
  (forall (i : nat) (c : Z),
      counts !! i = Some c ->
      d !! hex (Z.of_nat i) = if decide (c = 0) then None else Some c)
  /\ (forall key, is_Some (d !! key) ->
                  exists i : nat, (i < length counts)%nat /\ key = hex (Z.of_nat i)).

(** What [run] records for one circuit of the qobj. *)
Definition records (qobj : Qobj) (circuit : QobjExperiment)
    (er : ExperimentResult) : Prop :=
  er_name er = header_name (header circuit)
  /\ er_success er = true
  /\ er_shots er = config_shots qobj
  /\ exists counts,
       run_hadamard_simulator (config_n_qubits circuit)
         (hadamard_targets (instructions circuit)) (config_shots qobj)
       = Returns counts
       /\ nonzero_counts counts (er_counts er).

(** ** [run_hadamard_simulator] on list objects

    A Python list is an object, and the names [list_of_qubits],
    [hadamard_list] and [result] hold references to objects.  Here the
    store maps references to the contents of the lists, and the body of
    the function is written out once more, statement by statement, each
    statement reading or writing the object its name refers to. *)

(** [[0]*n]: a new object. *)
Definition new_list (store : gmap nat (list Z)) (l : list Z)
  : nat * gmap nat (list Z) :=
  let r := fresh (dom store) in (r, <[r := l]> store).

(** [l[i]], [l] being the object [r]. *)
Definition load (store : gmap nat (list Z)) (r : nat) (i : Z) : outcome Z :=
  match store !! r with
  | Some l => getitem l i
  | None => Raises TypeError
  end.

(** [l[i] = v] *)
Definition store_item (store : gmap nat (list Z)) (r : nat) (i v : Z)
  : outcome (gmap nat (list Z)) :=
  match store !! r with
  | Some l => let! l' := setitem l i v in Returns (<[r := l']> store)
  | None => Raises TypeError
  end.

(** [len(l)] *)
Definition len_of (store : gmap nat (list Z)) (r : nat) : outcome Z :=
  match store !! r with
  | Some l => Returns (Z.of_nat (length l))
  | None => Raises TypeError
  end.

(** [l.count(x)] *)
Definition count_of (store : gmap nat (list Z)) (x : Z) (r : nat) : outcome Z :=
  match store !! r with
  | Some l => Returns (count x l)
  | None => Raises TypeError
  end.

(** [for qubit in list_of_qubits]: the iterator reads the list position
    by position, from the store as it is when the position is reached;
    [positions] is what is left to visit (no statement of the function
    changes the length of a list, so the positions are those of the list
    as the loop starts). *)
Fixpoint parity_loop_obj (store : gmap nat (list Z))
    (list_of_qubits hadamard_list : nat) (positions : list Z)
  : outcome (gmap nat (list Z)) :=
  match positions with
  | [] => Returns store
  | position :: rest =>
      let! qubit := load store list_of_qubits position in
      let! h := load store hadamard_list qubit in
      let! store' := store_item store hadamard_list qubit ((1 + h) mod 2) in
      parity_loop_obj store' list_of_qubits hadamard_list rest
  end.

Fixpoint qubit_loop_obj (store : gmap nat (list Z)) (hadamard_list : nat)
    (basis_state : list ascii) (shots i : Z) (qubits : list Z) (result : nat)
  : outcome (gmap nat (list Z)) :=
  match qubits with
  | [] => Returns store
  | qubit :: rest =>
      let! h := load store hadamard_list qubit in
      let! blocked :=
        (if h =? 0
         then let! c := getitem basis_state qubit in
              Returns (bool_decide (c = "1"%char))
         else Returns false) in
      if (blocked : bool) then store_item store result i 0
      else
        let! h' := load store hadamard_list qubit in
        if h' =? 1 then
          let! old := load store result i in
          let! ones := count_of store 1 hadamard_list in
          let! term := int_truediv_pow2 shots (1 + ones) in
          let! store' := store_item store result i (old + term) in
          qubit_loop_obj store' hadamard_list basis_state shots i rest result
        else qubit_loop_obj store hadamard_list basis_state shots i rest result
  end.

Fixpoint basis_loop_obj (number_of_qubits : Z) (store : gmap nat (list Z))
    (hadamard_list : nat) (shots : Z) (indices : list Z) (result : nat)
  : outcome (gmap nat (list Z)) :=
  match indices with
  | [] => Returns store
  | i :: rest =>
      let basis_state := basis_state_of number_of_qubits i in
      let! store' := qubit_loop_obj store hadamard_list basis_state shots i
                       (range number_of_qubits) result in
      basis_loop_obj number_of_qubits store' hadamard_list shots rest result
  end.

(** The call: it is given the store and the reference [list_of_qubits],
    and hands back the reference it returns and the store as it leaves
    it. *)
Definition run_hadamard_simulator_obj (store : gmap nat (list Z))
    (number_of_qubits : Z) (list_of_qubits : nat) (shots : Z)
  : outcome (nat * gmap nat (list Z)) :=
  let (hadamard_list, store1) := new_list store (list_mul 0 number_of_qubits) in
  let! length := len_of store1 list_of_qubits in
  let! store2 := parity_loop_obj store1 list_of_qubits hadamard_list (range length) in
  if number_of_qubits <? 0 then Raises TypeError
  else
    let (result, store3) := new_list store2 (list_mul 0 (2 ^ number_of_qubits)) in
    let! store4 := basis_loop_obj number_of_qubits store3 hadamard_list shots
                     (range (2 ^ number_of_qubits)) result in
    Returns (result, store4).

Global Instance unsupported_decision (operation : QobjInstruction) :
  Decision (unsupported operation).
Proof. unfold unsupported. apply _. Defined.

Global Instance has_unsupported_decision (qobj : Qobj) :
  Decision (has_unsupported qobj).
Proof. unfold has_unsupported. apply _. Defined.

(** A conditional instruction is one that has a [conditional]
    attribute; an instruction is out of what the simulator supports when
    it is conditional or its name is neither ['h'] nor ['measure']. *)
Definition is_conditional (operation : QobjInstruction) : Prop :=
  is_Some (conditional operation).

Definition conditional_or_other_gate (operation : QobjInstruction) : Prop :=
  is_conditional operation
  \/ (name operation <> "h" /\ name operation <> "measure").

Definition has_conditional_or_other_gate (qobj : Qobj) : Prop :=
  Exists (fun circuit => Exists conditional_or_other_gate (instructions circuit))
    (experiments qobj).

Global Instance has_conditional_or_other_gate_decision (qobj : Qobj) :
  Decision (has_conditional_or_other_gate qobj).
Proof.
  unfold has_conditional_or_other_gate, conditional_or_other_gate, is_conditional.
  apply _.
Defined.

(** No [conditional] attribute of the qobj has the value 0 (which Python
    counts as false). *)
Definition no_zero_conditional (qobj : Qobj) : Prop :=
  Forall (fun circuit =>
            Forall (fun operation => conditional operation <> Some 0)
              (instructions circuit))
    (experiments qobj).

(** ** Inputs used below *)

Definition gate (gate_name : string) (qubit : Z) : QobjInstruction :=
  {| name := gate_name; qubits := [qubit]; conditional := None |}.

(** The circuit of the notebook: Hadamard gates on qubits 3, 1, 3, 2 of
    four, then a measurement of each qubit; 1024 shots. *)
Definition notebook_circuit : QobjExperiment :=
  {| config_n_qubits := 4;
     instructions := [gate "h" 3; gate "h" 1; gate "h" 3; gate "h" 2;
                      gate "measure" 0; gate "measure" 1;
                      gate "measure" 2; gate "measure" 3];
     header := {| header_name := "circuit0"; header_fields := [] |} |}.

Definition notebook_qobj : Qobj :=
  {| experiments := [notebook_circuit]; config_shots := 1024 |}.

(** The output the notebook records for
    [run_hadamard_simulator(4, [3, 1, 3, 2], 1024)]. *)
Definition notebook_counts : list Z :=
  [256; 0; 256; 0; 256; 0; 256; 0; 0; 0; 0; 0; 0; 0; 0; 0].

(** One Hadamard gate on the only qubit, measured. *)
Definition one_qubit_qobj : Qobj :=
  {| experiments :=
       [ {| config_n_qubits := 1;
            instructions := [gate "h" 0; gate "measure" 0];
            header := {| header_name := "circuit1"; header_fields := [] |} |} ];
     config_shots := 1024 |}.

(** The job [run] returns for it. *)
Definition one_qubit_result : Result :=
  Result_of
    [ {| er_name := "circuit1";
         er_success := true;
         er_shots := 1024;
         er_counts := <["0x0" := 256]> (<["0x1" := 256]> ∅);
         er_header := [("name", "circuit1")] |} ].

Definition one_qubit_job : HadamardJob :=
  {| _backend := None; _job_id := 1; _result := Some one_qubit_result |}.

(** A Hadamard gate on qubit 1 of a circuit that has only qubit 0. *)
Definition out_of_range_qobj : Qobj :=
  {| experiments :=
       [ {| config_n_qubits := 1;
            instructions := [gate "h" 1];
            header := {| header_name := "circuit2"; header_fields := [] |} |} ];
     config_shots := 1024 |}.

(** ** Notions of the further properties *)

(** The qubit a Python index into a list of [number_of_qubits] entries
    denotes: a negative index counts from the end. *)
Definition normalize_qubit (number_of_qubits q : Z) : Z :=
  if q <? 0 then q + number_of_qubits else q.

(** [sum(result)] *)
Definition sum_counts (result : list Z) : Z := foldr Z.add 0 result.

(** Python's [s < t] on strings: the first character that differs
    decides, and a proper prefix is smaller. *)
Fixpoint str_lt (s t : list ascii) : bool :=
  match s, t with
  | _, [] => false
  | [], _ :: _ => true
  | a :: s', b :: t' =>
      if (nat_of_ascii a <? nat_of_ascii b)%nat then true
      else if (nat_of_ascii b <? nat_of_ascii a)%nat then false
      else str_lt s' t'
  end.

(** The number a list of binary digits denotes, most significant
    first. *)
Fixpoint bits_value (bs : list bool) : Z :=
  match bs with
  | [] => 0
  | b :: bs' => Z.b2z b * 2 ^ Z.of_nat (length bs') + bits_value bs'
  end.

(** A Hadamard gate, then a conditional gate named ['x'], then a gate
    named ['cx']. *)
Definition conditional_x : QobjInstruction :=
  {| name := "x"; qubits := [0]; conditional := Some 1 |}.

Definition conditional_x_circuit : QobjExperiment :=
  {| config_n_qubits := 1;
     instructions := [gate "h" 0; conditional_x; gate "cx" 0];
     header := {| header_name := "circuit3"; header_fields := [] |} |}.

Definition conditional_x_qobj : Qobj :=
  {| experiments := [conditional_x_circuit]; config_shots := 1024 |}.

(** A Hadamard gate on a qubit the first circuit does not have, and a
    gate named ['x'] in the second circuit. *)
Definition out_of_range_circuit : QobjExperiment :=
  {| config_n_qubits := 1;
     instructions := [gate "h" 1];
     header := {| header_name := "circuit4"; header_fields := [] |} |}.

Definition x_circuit : QobjExperiment :=
  {| config_n_qubits := 1;
     instructions := [gate "x" 0];
     header := {| header_name := "circuit5"; header_fields := [] |} |}.

Definition two_circuit_qobj : Qobj :=
  {| experiments := [out_of_range_circuit; x_circuit]; config_shots := 1024 |}.

(** A circuit that only measures its qubit, and the job [run] returns
    for it. *)
Definition measure_only_circuit : QobjExperiment :=
  {| config_n_qubits := 1;
     instructions := [gate "measure" 0];
     header := {| header_name := "circuit6"; header_fields := [] |} |}.

Definition measure_only_qobj : Qobj :=
  {| experiments := [measure_only_circuit]; config_shots := 1024 |}.

Definition measure_only_job : HadamardJob :=
  {| _backend := None;
     _job_id := 1;
     _result :=
       Some (Result_of
               [ {| er_name := "circuit6";
                    er_success := true;
                    er_shots := 1024;
                    er_counts := ∅;
                    er_header := [("name", "circuit6")] |} ]) |}.

(** * Properties *)

(** ** Indexing *)

Lemma norm_index_nonneg (len i : Z) :
  0 <= i < len -> norm_index len i = Some (Z.to_nat i).
Proof.
  intros [H0 Hlt]. unfold norm_index.
  destruct (Z.ltb_spec i 0) as [?|_]; [lia|].
  destruct (Z.leb_spec 0 i) as [_|?]; [|lia].
  destruct (Z.ltb_spec i len) as [_|?]; [reflexivity|lia].
Qed.

Lemma getitem_lookup {A : Type} (l : list A) (i : Z) (x : A) :
  0 <= i -> l !! Z.to_nat i = Some x -> getitem l i = Returns x.
Proof.
  intros H0 Hx. unfold getitem.
  apply lookup_lt_Some in Hx as Hlt.
  rewrite norm_index_nonneg by lia. rewrite Hx. reflexivity.
Qed.

Lemma setitem_insert {A : Type} (l : list A) (i : Z) (v : A) :
  0 <= i < Z.of_nat (length l) ->
  setitem l i v = Returns (<[Z.to_nat i:=v]> l).
Proof.
  intros Hi. unfold setitem. rewrite norm_index_nonneg by lia. reflexivity.
Qed.

Lemma lookup_range (n : Z) (j : nat) :
  (j < Z.to_nat n)%nat -> range n !! j = Some (Z.of_nat j).
Proof.
  intros Hj. unfold range. rewrite list_lookup_fmap, lookup_seq_lt by lia.
  reflexivity.
Qed.

Lemma length_range (n : Z) : length (range n) = Z.to_nat n.
Proof. unfold range. rewrite length_fmap, length_seq. reflexivity. Qed.

Lemma count_cons (x y : Z) (l : list Z) :
  count x (y :: l) = (if decide (y = x) then 1 else 0) + count x l.
Proof.
  unfold count. rewrite filter_cons. destruct (decide (y = x)); simpl; lia.
Qed.

(** ** The parity loop *)

Lemma parity_loop_imap (list_of_qubits : list Z) :
  forall hadamard_list : list Z,
    Forall (fun q => 0 <= q < Z.of_nat (length hadamard_list)) list_of_qubits ->
    Forall (fun h => 0 <= h < 2) hadamard_list ->
    parity_loop list_of_qubits hadamard_list
    = Returns (imap (fun j h => (h + count (Z.of_nat j) list_of_qubits) mod 2)
                 hadamard_list).
Proof.
  induction list_of_qubits as [|q rest IH]; intros hl Hq Hh.
  - simpl. f_equal. apply list_eq. intros j. rewrite list_lookup_imap.
    destruct (hl !! j) as [h|] eqn:Hj; simpl; [|reflexivity].
    f_equal. rewrite Z.add_0_r.
    rewrite Forall_lookup in Hh. specialize (Hh _ _ Hj).
    symmetry. apply Z.mod_small. exact Hh.
  - inversion Hq as [|? ? Hq0 Hrest]; subst.
    destruct (lookup_lt_is_Some_2 hl (Z.to_nat q)) as [h Hh0]; [lia|].
    simpl. rewrite (getitem_lookup _ _ _ (proj1 Hq0) Hh0). simpl.
    rewrite setitem_insert by lia. simpl.
    rewrite IH.
    + f_equal. apply list_eq. intros j. rewrite !list_lookup_imap.
      destruct (decide (j = Z.to_nat q)) as [->|Hne].
      * rewrite list_lookup_insert_eq by (apply lookup_lt_Some in Hh0; lia).
        rewrite Hh0. simpl. f_equal.
        rewrite count_cons, Z2Nat.id by lia.
        destruct (decide (q = q)) as [_|?]; [|congruence].
        rewrite Z.add_mod_idemp_l by lia. f_equal. lia.
      * rewrite list_lookup_insert_ne by congruence.
        destruct (hl !! j) as [h'|]; simpl; [|reflexivity].
        rewrite count_cons.
        destruct (decide (q = Z.of_nat j)) as [->|_]; [|reflexivity].
        rewrite Nat2Z.id in Hne. congruence.
    + rewrite length_insert. exact Hrest.
    + apply Forall_insert; [exact Hh|]. apply Z.mod_pos_bound. lia.
Qed.

Lemma parity_loop_fresh (number_of_qubits : Z) (list_of_qubits : list Z) :
  valid_qubits number_of_qubits list_of_qubits ->
  parity_loop list_of_qubits (list_mul 0 number_of_qubits)
  = Returns ((fun q => if odd_qubit list_of_qubits q then 1 else 0)
             <$> range number_of_qubits).
Proof.
  intros Hv. rewrite parity_loop_imap.
  - f_equal. apply list_eq. intros j. unfold list_mul, range.
    rewrite list_lookup_imap, !list_lookup_fmap.
    destruct (decide (j < Z.to_nat number_of_qubits)%nat) as [Hj|Hj].
    + rewrite lookup_replicate_2, lookup_seq_lt by lia. simpl. f_equal.
      unfold odd_qubit. rewrite Z.add_0_l, Zmod_odd. reflexivity.
    + rewrite (proj1 (lookup_replicate_None _ _ _)), lookup_seq_ge by lia.
      reflexivity.
  - unfold list_mul. rewrite length_replicate.
    eapply Forall_impl; [exact Hv|]. simpl. intros q Hq. lia.
  - unfold list_mul. apply Forall_replicate. lia.
Qed.

(** ** The basis state string *)

Lemma pos_bin_bits (p : positive) :
  forall acc, pos_bin p acc = (digit <$> reverse (pos_bits p)) ++ acc.
Proof.
  induction p as [p IH|p IH|]; intros acc; simpl.
  - rewrite IH, reverse_cons, fmap_app, <- app_assoc. reflexivity.
  - rewrite IH, reverse_cons, fmap_app, <- app_assoc. reflexivity.
  - reflexivity.
Qed.

Lemma format_b_bits (i : Z) : 0 <= i -> format_b i = digit <$> bits_msb i.
Proof.
  destruct i as [|p|p]; intros Hi; simpl.
  - reflexivity.
  - rewrite pos_bin_bits, app_nil_r. reflexivity.
  - lia.
Qed.

Lemma zfill_digits (bs : list bool) (width : Z) :
  zfill (digit <$> bs) width
  = replicate (Z.to_nat (width - Z.of_nat (length bs))) "0"%char ++ (digit <$> bs).
Proof.
  unfold zfill. rewrite length_fmap.
  destruct bs as [|b bs]; simpl.
  - rewrite app_nil_r. reflexivity.
  - rewrite bool_decide_false; [reflexivity|].
    destruct b; intros [H|H]; discriminate H.
Qed.

Lemma pos_bits_testbit (p : positive) :
  forall q : nat,
    Z.testbit (Zpos p) (Z.of_nat q) = default false (pos_bits p !! q).
Proof.
  induction p as [p IH|p IH|]; intros [|q]; try reflexivity.
  - rewrite Nat2Z.inj_succ, Pos2Z.inj_xI, Z.testbit_odd_succ by lia. apply IH.
  - rewrite Nat2Z.inj_succ, Pos2Z.inj_xO, Z.testbit_even_succ by lia. apply IH.
Qed.

Lemma bits_msb_testbit (i : Z) (q : nat) :
  0 <= i ->
  Z.testbit i (Z.of_nat q) = default false (reverse (bits_msb i) !! q).
Proof.
  destruct i as [|p|p]; intros Hi.
  - rewrite Z.testbit_0_l. destruct q as [|[|q]]; reflexivity.
  - simpl. rewrite reverse_involutive. apply pos_bits_testbit.
  - lia.
Qed.

(** Character [q] of the basis state of index [i] is bit [q] of [i]. *)
Lemma basis_state_lookup (number_of_qubits i : Z) (q : nat) :
  0 <= i -> (q < Z.to_nat number_of_qubits)%nat ->
  basis_state_of number_of_qubits i !! q
  = Some (digit (Z.testbit i (Z.of_nat q))).
Proof.
  intros Hi Hq. unfold basis_state_of.
  rewrite format_b_bits, zfill_digits by exact Hi.
  rewrite reverse_app, reverse_replicate, <- fmap_reverse.
  rewrite (bits_msb_testbit i q Hi).
  rewrite <- (length_reverse (bits_msb i)).
  destruct (decide (q < length (reverse (bits_msb i)))%nat) as [Hlt|Hge].
  - rewrite lookup_app_l by (rewrite length_fmap; exact Hlt).
    rewrite list_lookup_fmap.
    destruct (lookup_lt_is_Some_2 _ _ Hlt) as [b Hb]. rewrite Hb. reflexivity.
  - rewrite lookup_app_r by (rewrite length_fmap; lia).
    rewrite length_fmap, lookup_replicate_2 by lia.
    rewrite lookup_ge_None_2 by lia. reflexivity.
Qed.

(** ** The two nested loops *)

Section Loops.

Variables (number_of_qubits : Z) (list_of_qubits : list Z) (shots : Z).

Let hadamard_list : list Z :=
  (fun q => if odd_qubit list_of_qubits q then 1 else 0) <$> range number_of_qubits.

Let k : Z := odd_qubits number_of_qubits list_of_qubits.

Lemma hadamard_list_lookup (q : nat) :
  (q < Z.to_nat number_of_qubits)%nat ->
  hadamard_list !! q
  = Some (if odd_qubit list_of_qubits (Z.of_nat q) then 1 else 0).
Proof.
  intros Hq. unfold hadamard_list.
  rewrite list_lookup_fmap, lookup_range by exact Hq. reflexivity.
Qed.

Lemma count_hadamard_list : count 1 hadamard_list = k.
Proof.
  unfold hadamard_list, k, odd_qubits, count. f_equal.
  induction (range number_of_qubits) as [|q qs IH]; [reflexivity|].
  rewrite fmap_cons, !filter_cons.
  destruct (odd_qubit list_of_qubits q);
    repeat case_decide; try congruence; try lia; simpl; rewrite IH; reflexivity.
Qed.

Lemma odd_qubits_pos (q : nat) :
  (q < Z.to_nat number_of_qubits)%nat ->
  odd_qubit list_of_qubits (Z.of_nat q) = true -> 0 < k.
Proof.
  intros Hq Hodd. unfold k, odd_qubits.
  assert (Hin : Z.of_nat q ∈ filter (fun q => odd_qubit list_of_qubits q = true)
                               (range number_of_qubits)).
  { apply list_elem_of_filter. split; [exact Hodd|].
    apply list_elem_of_lookup. exists q. apply lookup_range, Hq. }
  destruct (filter _ _) as [|x xs]; [inversion Hin|]. simpl. lia.
Qed.

Lemma qubit_loop_segment (i t : Z) :
  0 <= i ->
  (k <> 0 -> int_truediv_pow2 shots (1 + k) = Returns t) ->
  forall (len a : nat) (result : list Z) (acc : Z),
    (a + len <= Z.to_nat number_of_qubits)%nat ->
    result !! Z.to_nat i = Some acc ->
    qubit_loop hadamard_list (basis_state_of number_of_qubits i) shots i
      (Z.of_nat <$> seq a len) result
    = Returns (<[Z.to_nat i := entry_after list_of_qubits i t acc (Z.of_nat <$> seq a len)]> result).
Proof.
  intros Hi Hterm. induction len as [|len IH]; intros a result acc Ha Hacc.
  - simpl. unfold entry_after. simpl. rewrite Z.mul_0_r, Z.add_0_r.
    rewrite list_insert_id by exact Hacc. reflexivity.
  - assert (Hlt : (a < Z.to_nat number_of_qubits)%nat) by lia.
    pose proof (lookup_lt_Some _ _ _ Hacc) as Hlen.
    cbn [seq fmap list_fmap qubit_loop].
    rewrite (getitem_lookup hadamard_list (Z.of_nat a) _ (Nat2Z.is_nonneg a))
      by (rewrite Nat2Z.id; apply hadamard_list_lookup, Hlt).
    unfold entry_after. cbn [forallb]. rewrite filter_cons.
    destruct (odd_qubit list_of_qubits (Z.of_nat a)) eqn:Hodd.
    + (* an odd qubit: the term is added *)
      cbn [bind Z.eqb negb].
      rewrite count_hadamard_list.
      rewrite (getitem_lookup result i acc Hi Hacc). cbn [bind].
      rewrite Hterm by (pose proof (odd_qubits_pos a Hlt Hodd); lia).
      cbn [bind]. rewrite setitem_insert by lia. cbn [bind].
      rewrite (IH (S a) _ (acc + t)).
      * rewrite list_insert_insert_eq. unfold entry_after.
        rewrite implb_true_r, andb_true_l.
        rewrite decide_True by reflexivity. cbn [length].
        destruct (forallb _ _); [|reflexivity].
        do 2 f_equal. lia.
      * lia.
      * apply list_lookup_insert_eq. exact Hlen.
    + (* an even qubit: either the state has a 1 there, or nothing happens *)
      cbn [bind Z.eqb].
      rewrite (getitem_lookup (basis_state_of number_of_qubits i) (Z.of_nat a) _
                 (Nat2Z.is_nonneg a))
        by (rewrite Nat2Z.id; apply basis_state_lookup; assumption).
      cbn [bind]. rewrite decide_False by congruence.
      destruct (Z.testbit i (Z.of_nat a)) eqn:Hbit; cbn [digit implb andb].
      * rewrite bool_decide_true by reflexivity.
        apply setitem_insert. lia.
      * rewrite bool_decide_false by discriminate.
        rewrite (IH (S a) result acc) by (assumption || lia).
        reflexivity.
Qed.

(** On the basis state 0 nothing stops the inner loop, so a failing
    division is reached as soon as one qubit is odd. *)
Lemma qubit_loop_zero_raises (e : exn) :
  int_truediv_pow2 shots (1 + k) = Raises e ->
  forall (len a : nat) (result : list Z) (acc : Z),
    (a + len <= Z.to_nat number_of_qubits)%nat ->
    result !! 0%nat = Some acc ->
    (exists q, (a <= q < a + len)%nat /\ odd_qubit list_of_qubits (Z.of_nat q) = true) ->
    qubit_loop hadamard_list (basis_state_of number_of_qubits 0) shots 0
      (Z.of_nat <$> seq a len) result
    = Raises e.
Proof.
  intros Hterm. induction len as [|len IH]; intros a result acc Ha Hacc [q [Hq Hodd]].
  - lia.
  - assert (Hlt : (a < Z.to_nat number_of_qubits)%nat) by lia.
    cbn [seq fmap list_fmap qubit_loop].
    rewrite (getitem_lookup hadamard_list (Z.of_nat a) _ (Nat2Z.is_nonneg a))
      by (rewrite Nat2Z.id; apply hadamard_list_lookup, Hlt).
    destruct (odd_qubit list_of_qubits (Z.of_nat a)) eqn:Hodd_a.
    + cbn [bind Z.eqb negb]. rewrite count_hadamard_list.
      rewrite (getitem_lookup result 0 acc (Z.le_refl 0) Hacc). cbn [bind].
      rewrite Hterm. reflexivity.
    + cbn [bind Z.eqb].
      rewrite (getitem_lookup (basis_state_of number_of_qubits 0) (Z.of_nat a) _
                 (Nat2Z.is_nonneg a))
        by (rewrite Nat2Z.id; apply basis_state_lookup; [lia|exact Hlt]).
      rewrite Z.testbit_0_l. cbn [bind digit].
      rewrite bool_decide_false by discriminate.
      apply (IH (S a) result acc); [lia|exact Hacc|].
      exists q. split; [|exact Hodd].
      destruct (decide (q = a)) as [->|?]; [congruence|lia].
Qed.

Lemma entry_after_range (t i : Z) :
  entry_after list_of_qubits i t 0 (range number_of_qubits)
  = entry number_of_qubits list_of_qubits t i.
Proof.
  unfold entry_after, entry, compatible, odd_qubits.
  destruct (forallb _ _); [lia|reflexivity].
Qed.

Lemma basis_loop_segment (t : Z) :
  (k <> 0 -> int_truediv_pow2 shots (1 + k) = Returns t) ->
  forall (len a : nat) (result : list Z),
    (a + len <= length result)%nat ->
    (forall j, (a <= j < length result)%nat -> result !! j = Some 0) ->
    exists result',
      basis_loop number_of_qubits hadamard_list shots (Z.of_nat <$> seq a len) result
      = Returns result'
      /\ length result' = length result
      /\ (forall j, (j < a)%nat -> result' !! j = result !! j)
      /\ (forall j, (a <= j < a + len)%nat ->
                    result' !! j
                    = Some (entry number_of_qubits list_of_qubits t (Z.of_nat j)))
      /\ (forall j, (a + len <= j < length result)%nat -> result' !! j = Some 0).
Proof.
  intros Hterm. induction len as [|len IH]; intros a result Ha Hzero.
  - exists result. simpl. repeat split; auto; try lia.
    intros j Hj. apply Hzero. lia.
  - cbn [seq fmap list_fmap basis_loop].
    change (Z.of_nat <$> seq 0 (Z.to_nat number_of_qubits))
      with (range number_of_qubits).
    unfold range at 1.
    rewrite (qubit_loop_segment (Z.of_nat a) t (Nat2Z.is_nonneg a) Hterm
               (Z.to_nat number_of_qubits) 0%nat result 0)
      by (try lia; rewrite Nat2Z.id; apply Hzero; lia).
    cbn [bind]. fold (range number_of_qubits).
    rewrite entry_after_range, Nat2Z.id.
    destruct (IH (S a) (<[a := entry number_of_qubits list_of_qubits t (Z.of_nat a)]> result))
      as (result' & Hrun & Hlen & Hbefore & Hin & Hafter).
    + rewrite length_insert. lia.
    + intros j Hj. rewrite length_insert in Hj.
      rewrite list_lookup_insert_ne by lia. apply Hzero. lia.
    + exists result'. rewrite length_insert in *.
      split; [exact Hrun|]. split; [exact Hlen|]. repeat split.
      * intros j Hj. rewrite Hbefore by lia.
        apply list_lookup_insert_ne. lia.
      * intros j Hj. destruct (decide (j = a)) as [->|Hne].
        -- rewrite Hbefore by lia. apply list_lookup_insert_eq. lia.
        -- apply Hin. lia.
      * intros j Hj. apply Hafter. lia.
Qed.

End Loops.

(** ** The division *)

Lemma round_to_53_bits_le (a : Z) :
  0 <= a -> round_to_53_bits a <= 2 ^ (Z.log2 a + 1).
Proof.
  intros Ha. unfold round_to_53_bits.
  assert (Hlt : a < 2 ^ (Z.log2 a + 1)).
  { destruct (Z.eq_dec a 0) as [->|Hne]; [reflexivity|].
    apply Z.log2_spec. lia. }
  pose proof (Z.log2_nonneg a) as Hlog.
  destruct (Z.leb_spec (Z.log2 a + 1 - 53) 0) as [_|Hs]; [lia|].
  set (s := Z.log2 a + 1 - 53) in *.
  rewrite Z.shiftl_mul_pow2, Z.shiftr_div_pow2 by lia.
  assert (Hq : a / 2 ^ s < 2 ^ 53).
  { apply Z.div_lt_upper_bound; [lia|].
    rewrite <- Z.pow_add_r by lia.
    replace (s + 53) with (Z.log2 a + 1) by lia. exact Hlt. }
  replace (Z.log2 a + 1) with (53 + s) by lia.
  rewrite Z.pow_add_r by lia.
  apply Z.mul_le_mono_nonneg_r; [lia|].
  destruct (_ || _); lia.
Qed.

Lemma round_to_53_bits_small (a : Z) :
  0 <= a < 2 ^ 53 -> round_to_53_bits a = a.
Proof.
  intros Ha. unfold round_to_53_bits.
  destruct (Z.eq_dec a 0) as [->|Hne]; [reflexivity|].
  assert (Z.log2 a < 53) by (apply Z.log2_lt_pow2; lia).
  destruct (Z.leb_spec (Z.log2 a + 1 - 53) 0) as [_|Hs]; [reflexivity|lia].
Qed.

(** The division of the simulator cannot overflow when the number of
    shots is below [2**1024] in absolute value. *)
Lemma int_truediv_pow2_returns (a e : Z) :
  Z.abs a < 2 ^ 1024 -> 1 <= e -> returns (int_truediv_pow2 a e).
Proof.
  intros Ha He. unfold int_truediv_pow2.
  destruct (Z.leb_spec (2 ^ (1024 + e)) (round_to_53_bits (Z.abs a))) as [Hov|_];
    [|eexists; reflexivity].
  exfalso.
  pose proof (round_to_53_bits_le (Z.abs a) (Z.abs_nonneg a)) as Hle.
  assert (Hlog : Z.log2 (Z.abs a) + 1 <= 1024).
  { destruct (Z.eq_dec (Z.abs a) 0) as [->|Hne]; [simpl; lia|].
    assert (Z.log2 (Z.abs a) < 1024); [|lia].
    apply Z.log2_lt_pow2; lia. }
  assert (H1 : 2 ^ (Z.log2 (Z.abs a) + 1) <= 2 ^ 1024)
    by (apply Z.pow_le_mono_r; lia).
  assert (H2 : 2 ^ 1024 < 2 ^ (1024 + e))
    by (apply Z.pow_lt_mono_r; lia).
  lia.
Qed.

(** Below [2**53] the division is exact: the result is the integer
    quotient. *)
Lemma int_truediv_pow2_exact (a e : Z) :
  0 <= a < 2 ^ 53 -> 0 <= e -> int_truediv_pow2 a e = Returns (a / 2 ^ e).
Proof.
  intros Ha He. unfold int_truediv_pow2.
  rewrite Z.abs_eq by lia. rewrite round_to_53_bits_small by exact Ha.
  assert (H53 : 2 ^ 53 <= 2 ^ (1024 + e)) by (apply Z.pow_le_mono_r; lia).
  destruct (Z.leb_spec (2 ^ (1024 + e)) a) as [?|_]; [lia|].
  f_equal. destruct (Z.eq_dec a 0) as [->|Hne]; [reflexivity|].
  rewrite Z.sgn_pos by lia. lia.
Qed.

(** ** What [run_hadamard_simulator] computes *)

Lemma run_hadamard_simulator_entries (number_of_qubits : Z)
    (list_of_qubits : list Z) (shots t : Z) :
  0 <= number_of_qubits ->
  valid_qubits number_of_qubits list_of_qubits ->
  (odd_qubits number_of_qubits list_of_qubits <> 0 ->
   int_truediv_pow2 shots (1 + odd_qubits number_of_qubits list_of_qubits)
   = Returns t) ->
  run_hadamard_simulator number_of_qubits list_of_qubits shots
  = Returns (entry number_of_qubits list_of_qubits t <$> range (2 ^ number_of_qubits)).
Proof.
  intros Hn Hv Hterm. unfold run_hadamard_simulator.
  rewrite parity_loop_fresh by exact Hv. cbn [bind].
  destruct (Z.ltb_spec number_of_qubits 0) as [?|_]; [lia|].
  destruct (basis_loop_segment number_of_qubits list_of_qubits shots t Hterm
              (Z.to_nat (2 ^ number_of_qubits)) 0%nat
              (list_mul 0 (2 ^ number_of_qubits)))
    as (result' & Hrun & Hlen & _ & Hin & _).
  - unfold list_mul. rewrite length_replicate. lia.
  - unfold list_mul. intros j Hj. rewrite length_replicate in Hj.
    apply lookup_replicate_2. lia.
  - unfold range at 2. rewrite Hrun. f_equal.
    unfold list_mul in Hlen. rewrite length_replicate in Hlen.
    apply list_eq. intros j.
    destruct (decide (j < Z.to_nat (2 ^ number_of_qubits))%nat) as [Hj|Hj].
    + rewrite Hin by lia.
      rewrite list_lookup_fmap, lookup_range by exact Hj. reflexivity.
    + rewrite !lookup_ge_None_2; [reflexivity| |lia].
      rewrite length_fmap, length_range. lia.
Qed.

Lemma run_hadamard_simulator_raises (number_of_qubits : Z)
    (list_of_qubits : list Z) (shots : Z) (e : exn) :
  0 <= number_of_qubits ->
  valid_qubits number_of_qubits list_of_qubits ->
  odd_qubits number_of_qubits list_of_qubits <> 0 ->
  int_truediv_pow2 shots (1 + odd_qubits number_of_qubits list_of_qubits)
  = Raises e ->
  run_hadamard_simulator number_of_qubits list_of_qubits shots = Raises e.
Proof.
  intros Hn Hv Hk Hterm. unfold run_hadamard_simulator.
  rewrite parity_loop_fresh by exact Hv. cbn [bind].
  destruct (Z.ltb_spec number_of_qubits 0) as [?|_]; [lia|].
  assert (Hpow : 0 < 2 ^ number_of_qubits) by (apply Z.pow_pos_nonneg; lia).
  unfold range at 2, list_mul.
  destruct (Z.to_nat (2 ^ number_of_qubits)) as [|m] eqn:Hm; [lia|].
  cbn [seq fmap list_fmap basis_loop]. change (Z.of_nat 0) with 0.
  unfold range.
  rewrite (qubit_loop_zero_raises number_of_qubits list_of_qubits shots e Hterm
             (Z.to_nat number_of_qubits) 0%nat _ 0); try reflexivity; try lia.
  unfold odd_qubits in Hk.
  destruct (filter _ (range number_of_qubits)) as [|q qs] eqn:Hf; [simpl in Hk; lia|].
  assert (Hin : q ∈ filter (fun q => odd_qubit list_of_qubits q = true)
                      (range number_of_qubits)) by (rewrite Hf; left).
  apply list_elem_of_filter in Hin as [Hodd Hin].
  apply list_elem_of_lookup in Hin as [j Hj].
  pose proof (lookup_lt_Some _ _ _ Hj) as Hlt. rewrite length_range in Hlt.
  rewrite lookup_range in Hj by exact Hlt. injection Hj as <-.
  exists j. split; [lia|exact Hodd].
Qed.

(** The closed form: the count of a compatible basis state is [k] times
    [int(shots / 2**(1+k))], where [k] is the number of odd qubits. *)
Lemma run_hadamard_simulator_closed_form (number_of_qubits : Z)
    (list_of_qubits : list Z) (shots : Z) :
  0 <= number_of_qubits ->
  valid_qubits number_of_qubits list_of_qubits ->
  run_hadamard_simulator number_of_qubits list_of_qubits shots
  = if odd_qubits number_of_qubits list_of_qubits =? 0
    then Returns (entry number_of_qubits list_of_qubits 0
                    <$> range (2 ^ number_of_qubits))
    else
      let! t := int_truediv_pow2 shots
                  (1 + odd_qubits number_of_qubits list_of_qubits) in
      Returns (entry number_of_qubits list_of_qubits t
                 <$> range (2 ^ number_of_qubits)).
Proof.
  intros Hn Hv.
  destruct (Z.eqb_spec (odd_qubits number_of_qubits list_of_qubits) 0) as [Hk|Hk].
  - apply run_hadamard_simulator_entries; [exact Hn|exact Hv|congruence].
  - destruct (int_truediv_pow2 shots _) as [t|e] eqn:Hterm; cbn [bind].
    + apply run_hadamard_simulator_entries; [exact Hn|exact Hv|intros _; exact Hterm].
    + apply run_hadamard_simulator_raises; assumption.
Qed.

(** ** Lengths *)

Lemma setitem_length {A : Type} (l l' : list A) (i : Z) (v : A) :
  setitem l i v = Returns l' -> length l' = length l.
Proof.
  unfold setitem. destruct (norm_index _ _); intros H; inversion H.
  apply length_insert.
Qed.

Lemma qubit_loop_length (hadamard_list : list Z) (basis_state : list ascii)
    (shots i : Z) (qubits : list Z) :
  forall result result' : list Z,
    qubit_loop hadamard_list basis_state shots i qubits result = Returns result' ->
    length result' = length result.
Proof.
  induction qubits as [|qubit rest IH]; intros result result' H; simpl in H.
  - inversion H. reflexivity.
  - destruct (getitem hadamard_list qubit) as [h|]; [|discriminate H].
    cbn [bind] in H.
    destruct (if h =? 0 then _ else _) as [[|]|]; cbn [bind] in H;
      [eapply setitem_length; exact H| |discriminate H].
    destruct (h =? 1).
    + destruct (getitem result i) as [old|]; [|discriminate H]. cbn [bind] in H.
      destruct (int_truediv_pow2 _ _) as [term|]; [|discriminate H].
      cbn [bind] in H.
      destruct (setitem result i (old + term)) as [r1|] eqn:Hset; [|discriminate H].
      cbn [bind] in H. rewrite (IH _ _ H). eapply setitem_length; exact Hset.
    + apply IH, H.
Qed.

Lemma basis_loop_length (number_of_qubits : Z) (hadamard_list : list Z)
    (shots : Z) (indices : list Z) :
  forall result result' : list Z,
    basis_loop number_of_qubits hadamard_list shots indices result = Returns result' ->
    length result' = length result.
Proof.
  induction indices as [|i rest IH]; intros result result' H; simpl in H.
  - inversion H. reflexivity.
  - destruct (qubit_loop _ _ _ _ _ _) as [r1|] eqn:Hq; [|discriminate H].
    cbn [bind] in H. rewrite (IH _ _ H). eapply qubit_loop_length; exact Hq.
Qed.

(** Whenever the simulator returns, there was a non-negative number of
    qubits and the list has one entry per basis state. *)
Lemma run_hadamard_simulator_length (number_of_qubits : Z)
    (list_of_qubits : list Z) (shots : Z) (result : list Z) :
  run_hadamard_simulator number_of_qubits list_of_qubits shots = Returns result ->
  0 <= number_of_qubits /\ Z.of_nat (length result) = 2 ^ number_of_qubits.
Proof.
  unfold run_hadamard_simulator. intros H.
  destruct (parity_loop _ _) as [hl|]; [|discriminate H]. cbn [bind] in H.
  destruct (Z.ltb_spec number_of_qubits 0) as [?|Hn]; [discriminate H|].
  split; [exact Hn|].
  apply basis_loop_length in H. rewrite H. unfold list_mul.
  rewrite length_replicate. apply Z2Nat.id. apply Z.pow_nonneg. lia.
Qed.

(** ** [hex] gives distinct keys to distinct indices *)

Lemma hex_digit_value_digit (d : Z) :
  0 <= d < 16 -> hex_digit_value (hex_digit d) = d.
Proof.
  intros Hd.
  assert (H : d = 0 \/ d = 1 \/ d = 2 \/ d = 3 \/ d = 4 \/ d = 5 \/ d = 6 \/ d = 7
              \/ d = 8 \/ d = 9 \/ d = 10 \/ d = 11 \/ d = 12 \/ d = 13 \/ d = 14
              \/ d = 15) by lia.
  repeat (destruct H as [->|H]; [vm_compute; reflexivity|]).
  subst d. vm_compute. reflexivity.
Qed.

Lemma hex_value_snoc (s : list ascii) (c : ascii) :
  hex_value (s ++ [c]) = 16 * hex_value s + hex_digit_value c.
Proof. unfold hex_value. rewrite fold_left_app. reflexivity. Qed.

Lemma hex_value_digits (fuel : nat) :
  forall n : Z,
    0 <= n < 16 * 16 ^ Z.of_nat fuel -> hex_value (hex_digits fuel n) = n.
Proof.
  induction fuel as [|fuel IH]; intros n Hn.
  - simpl in *. unfold hex_value. simpl.
    rewrite hex_digit_value_digit by lia. reflexivity.
  - cbn [hex_digits]. destruct (Z.ltb_spec n 16) as [Hlt|Hge].
    + unfold hex_value. simpl. rewrite hex_digit_value_digit by lia. reflexivity.
    + rewrite hex_value_snoc, IH.
      * rewrite hex_digit_value_digit by (apply Z.mod_pos_bound; lia).
        symmetry. apply Z.div_mod. lia.
      * split; [apply Z.div_pos; lia|].
        apply Z.div_lt_upper_bound; [lia|].
        rewrite Nat2Z.inj_succ, Z.pow_succ_r in Hn by lia. lia.
Qed.

Lemma hex_value_hex_chars (i : Z) :
  0 <= i -> hex_value (drop 2 (hex_chars i)) = i.
Proof.
  intros Hi. unfold hex_chars.
  destruct (Z.ltb_spec i 0) as [?|_]; [lia|].
  cbn [app drop]. rewrite Z.abs_eq by exact Hi.
  apply hex_value_digits. split; [exact Hi|].
  pose proof (Z.log2_nonneg i) as Hlog. rewrite Z2Nat.id by exact Hlog.
  destruct (Z.eq_dec i 0) as [->|Hne].
  - simpl. lia.
  - assert (Hlt : i < 2 ^ Z.succ (Z.log2 i)) by (apply Z.log2_spec; lia).
    assert (Hle : 2 ^ Z.succ (Z.log2 i) <= 16 ^ Z.succ (Z.log2 i))
      by (apply Z.pow_le_mono_l; lia).
    rewrite (Z.pow_succ_r 16) in Hle by exact Hlog. lia.
Qed.

Lemma hex_inj (i j : Z) : 0 <= i -> 0 <= j -> hex i = hex j -> i = j.
Proof.
  intros Hi Hj Heq. unfold hex in Heq.
  apply (f_equal list_ascii_of_string) in Heq.
  rewrite !list_ascii_of_string_of_list_ascii in Heq.
  rewrite <- (hex_value_hex_chars i Hi), <- (hex_value_hex_chars j Hj), Heq.
  reflexivity.
Qed.

Example hex_255 : hex 255 = "0xff".
Proof. reflexivity. Qed.

(** ** The dictionary of counts *)

Lemma format_loop_segment (counts : list Z) :
  forall (len a : nat) (formatted_counts : gmap string Z),
    (a + len <= length counts)%nat ->
    exists formatted_counts',
      format_loop counts (Z.of_nat <$> seq a len) formatted_counts
      = Returns formatted_counts'
      /\ (forall j c, (a <= j < a + len)%nat -> counts !! j = Some c ->
            formatted_counts' !! hex (Z.of_nat j)
            = if decide (c = 0) then formatted_counts !! hex (Z.of_nat j)
              else Some c)
      /\ (forall key, (forall j, (a <= j < a + len)%nat -> key <> hex (Z.of_nat j)) ->
            formatted_counts' !! key = formatted_counts !! key).
Proof.
  induction len as [|len IH]; intros a fc Ha.
  - exists fc. simpl. split; [reflexivity|]. split; [intros; lia|reflexivity].
  - destruct (lookup_lt_is_Some_2 counts a) as [c Hc]; [lia|].
    cbn [seq fmap list_fmap format_loop].
    rewrite (getitem_lookup counts (Z.of_nat a) c (Nat2Z.is_nonneg a))
      by (rewrite Nat2Z.id; exact Hc).
    cbn [bind].
    set (fc1 := if negb (c =? 0) then <[hex (Z.of_nat a) := c]> fc else fc).
    destruct (IH (S a) fc1) as (fc' & Hrun & Hin & Hout); [lia|].
    exists fc'. split; [|split].
    + destruct (Z.eqb_spec c 0) as [Hz|Hnz]; cbn [negb bind]; exact Hrun.
    + intros j c' Hj Hc'. destruct (decide (j = a)) as [->|Hne].
      * rewrite Hc in Hc'. injection Hc' as <-.
        rewrite Hout.
        -- unfold fc1. destruct (Z.eqb_spec c 0) as [Hz|Hnz]; cbn [negb].
           ++ rewrite decide_True by exact Hz. reflexivity.
           ++ rewrite decide_False by exact Hnz. apply lookup_insert_eq.
        -- intros j Hj' Heq. apply hex_inj in Heq; lia.
      * rewrite (Hin j c') by (lia || exact Hc').
        destruct (decide (c' = 0)); [|reflexivity].
        unfold fc1. destruct (negb (c =? 0)); [|reflexivity].
        apply lookup_insert_ne. intros Heq. apply hex_inj in Heq; lia.
    + intros key Hkey. rewrite Hout by (intros j Hj; apply Hkey; lia).
      unfold fc1. destruct (negb (c =? 0)); [|reflexivity].
      apply lookup_insert_ne. intros Heq. apply (Hkey a); [lia|]. congruence.
Qed.

(** ** The loop over the instructions *)

Lemma getitem_0_head {A : Type} (l : list A) (x : A) :
  getitem l 0 = Returns x <-> head l = Some x.
Proof.
  destruct l as [|y l]; simpl.
  - split; intros H; discriminate H.
  - unfold getitem, norm_index. simpl.
    destruct (Z.ltb_spec 0 (Z.pos (Pos.of_succ_nat (length l)))) as [_|?]; [|lia].
    simpl. split; intros H; injection H as <-; reflexivity.
Qed.

Lemma unsupported_dec (operation : QobjInstruction) :
  truthy (conditional operation) = false ->
  (name operation = "h" \/ name operation = "measure") ->
  ~ unsupported operation.
Proof.
  intros Hc Hn [Hu|[Hh Hm]]; [congruence|]. destruct Hn; contradiction.
Qed.

Lemma hadamard_targets_cons (operation : QobjInstruction)
    (rest : list QobjInstruction) :
  hadamard_targets (operation :: rest)
  = match (if bool_decide (name operation = "h") then head (qubits operation)
           else None) with
    | Some q => q :: hadamard_targets rest
    | None => hadamard_targets rest
    end.
Proof. reflexivity. Qed.

Lemma instruction_loop_targets (operations : list QobjInstruction) :
  forall list_of_qubits l : list Z,
    instruction_loop operations list_of_qubits = Returns l ->
    l = list_of_qubits ++ hadamard_targets operations
    /\ Forall (fun operation => ~ unsupported operation) operations.
Proof.
  induction operations as [|operation rest IH]; intros l0 l H; simpl in H.
  - inversion H. unfold hadamard_targets. simpl. rewrite app_nil_r. auto.
  - destruct (truthy (conditional operation)) eqn:Hc; [discriminate H|].
    rewrite hadamard_targets_cons.
    destruct (bool_decide_reflect (name operation = "h")) as [Hh|Hh]; cbn [negb] in H.
    + destruct (getitem (qubits operation) 0) as [q|] eqn:Hq; [|discriminate H].
      cbn [bind] in H. apply getitem_0_head in Hq. rewrite Hq.
      destruct (IH _ _ H) as [-> Hsup]. split.
      * rewrite <- app_assoc. reflexivity.
      * constructor; [apply unsupported_dec; auto|exact Hsup].
    + destruct (bool_decide_reflect (name operation = "measure")) as [Hm|Hm];
        [|discriminate H].
      destruct (IH _ _ H) as [-> Hsup]. split; [reflexivity|].
      constructor; [apply unsupported_dec; auto|exact Hsup].
Qed.

Lemma instruction_loop_returns (operations : list QobjInstruction) :
  Forall (fun operation => ~ unsupported operation) operations ->
  Forall (fun operation => name operation = "h" -> is_Some (head (qubits operation)))
    operations ->
  forall list_of_qubits,
    instruction_loop operations list_of_qubits
    = Returns (list_of_qubits ++ hadamard_targets operations).
Proof.
  induction operations as [|operation rest IH]; intros Hsup Hq l0.
  - unfold hadamard_targets. simpl. rewrite app_nil_r. reflexivity.
  - inversion Hsup as [|? ? Hs Hsup']; subst.
    inversion Hq as [|? ? Hq0 Hq']; subst.
    cbn [instruction_loop]. rewrite hadamard_targets_cons.
    destruct (truthy (conditional operation)) eqn:Hc.
    { exfalso. apply Hs. left. exact Hc. }
    destruct (bool_decide_reflect (name operation = "h")) as [Hh|Hh]; cbn [negb].
    + destruct (Hq0 Hh) as [q Hhead]. rewrite Hhead.
      rewrite (proj2 (getitem_0_head _ _) Hhead). cbn [bind].
      rewrite IH by assumption.
      rewrite <- app_assoc. reflexivity.
    + destruct (bool_decide_reflect (name operation = "measure")) as [Hm|Hm].
      * apply IH; assumption.
      * exfalso. apply Hs. right. auto.
Qed.

Lemma hadamard_targets_filter (operations : list QobjInstruction) :
  Forall (fun operation => name operation = "h" -> is_Some (head (qubits operation)))
    operations ->
  Forall2 (fun operation q => head (qubits operation) = Some q)
    (filter (fun operation => name operation = "h") operations)
    (hadamard_targets operations).
Proof.
  induction operations as [|operation rest IH]; intros Hq.
  - constructor.
  - inversion Hq as [|? ? Hq0 Hq']; subst.
    rewrite hadamard_targets_cons.
    rewrite filter_cons.
    destruct (bool_decide_reflect (name operation = "h")) as [Hh|Hh].
    + rewrite decide_True by exact Hh. destruct (Hq0 Hh) as [q Hhead].
      rewrite Hhead. constructor; [exact Hhead|apply IH, Hq'].
    + rewrite decide_False by exact Hh. apply IH, Hq'.
Qed.

Lemma hadamard_targets_valid (circuit : QobjExperiment) :
  well_formed_circuit circuit ->
  valid_qubits (config_n_qubits circuit) (hadamard_targets (instructions circuit)).
Proof.
  intros [_ Hwf]. unfold valid_qubits.
  induction (instructions circuit) as [|operation rest IH].
  - constructor.
  - inversion Hwf as [|? ? H0 Hrest]; subst.
    rewrite hadamard_targets_cons.
    destruct (bool_decide_reflect (name operation = "h")) as [Hh|Hh].
    + destruct (H0 Hh) as (q & Hhead & Hrange). rewrite Hhead.
      constructor; [exact Hrange|apply IH, Hrest].
    + apply IH, Hrest.
Qed.

(** ** One circuit, then all of them *)

Lemma run_hadamard_simulator_total (number_of_qubits : Z)
    (list_of_qubits : list Z) (shots : Z) :
  0 <= number_of_qubits ->
  valid_qubits number_of_qubits list_of_qubits ->
  Z.abs shots < 2 ^ 1024 ->
  returns (run_hadamard_simulator number_of_qubits list_of_qubits shots).
Proof.
  intros Hn Hv Hshots.
  rewrite run_hadamard_simulator_closed_form by assumption.
  destruct (Z.eqb_spec (odd_qubits number_of_qubits list_of_qubits) 0) as [_|_].
  - eexists; reflexivity.
  - destruct (int_truediv_pow2_returns shots
                (1 + odd_qubits number_of_qubits list_of_qubits) Hshots) as [t Ht].
    + unfold odd_qubits. lia.
    + rewrite Ht. eexists; reflexivity.
Qed.

Lemma format_loop_nonzero_counts (counts : list Z) :
  exists formatted_counts,
    format_loop counts (range (Z.of_nat (length counts))) ∅ = Returns formatted_counts
    /\ nonzero_counts counts formatted_counts.
Proof.
  destruct (format_loop_segment counts (length counts) 0 ∅ (Nat.le_refl _))
    as (fc & Hrun & Hin & Hout).
  exists fc. unfold range. rewrite Nat2Z.id. split; [exact Hrun|]. split.
  - intros i c Hc. pose proof (lookup_lt_Some _ _ _ Hc) as Hlt.
    rewrite (Hin i c) by (lia || exact Hc). rewrite lookup_empty. reflexivity.
  - intros key [v Hv].
    destruct (decide (Exists (fun j => key = hex (Z.of_nat j)) (seq 0 (length counts))))
      as [Hex|Hnex].
    + apply Exists_exists in Hex as (j & Hj & ->).
      apply elem_of_seq in Hj. exists j. split; [lia|reflexivity].
    + rewrite Hout, lookup_empty in Hv; [discriminate Hv|].
      intros j Hj Hkey. apply Hnex, Exists_exists. exists j.
      split; [apply elem_of_seq; lia|exact Hkey].
Qed.

Lemma simulate_circuit_records (qobj : Qobj) (circuit : QobjExperiment)
    (er : ExperimentResult) :
  simulate_circuit qobj circuit (hadamard_targets (instructions circuit)) = Returns er ->
  records qobj circuit er.
Proof.
  unfold simulate_circuit. intros H.
  destruct (run_hadamard_simulator _ _ _) as [counts|] eqn:Hrun; [|discriminate H].
  cbn [bind] in H.
  destruct (run_hadamard_simulator_length _ _ _ _ Hrun) as [_ Hlen].
  destruct (format_loop_nonzero_counts counts) as (fc & Hfmt & Hnz).
  rewrite <- Hlen, Hfmt in H. cbn [bind] in H. injection H as <-.
  repeat split; try reflexivity. exists counts. split; [exact Hrun|exact Hnz].
Qed.

Lemma simulate_circuit_returns (qobj : Qobj) (circuit : QobjExperiment) :
  well_formed_circuit circuit ->
  Z.abs (config_shots qobj) < 2 ^ 1024 ->
  returns (simulate_circuit qobj circuit (hadamard_targets (instructions circuit))).
Proof.
  intros Hwf Hshots. unfold simulate_circuit.
  destruct (run_hadamard_simulator_total (config_n_qubits circuit)
              (hadamard_targets (instructions circuit)) (config_shots qobj))
    as [counts Hrun]; [exact (proj1 Hwf)|apply hadamard_targets_valid, Hwf|exact Hshots|].
  rewrite Hrun. cbn [bind].
  destruct (run_hadamard_simulator_length _ _ _ _ Hrun) as [_ Hlen].
  destruct (format_loop_nonzero_counts counts) as (fc & Hfmt & _).
  rewrite <- Hlen, Hfmt. eexists; reflexivity.
Qed.

Lemma experiment_loop_records (qobj : Qobj) (circuits : list QobjExperiment) :
  forall experiment_results rs : list ExperimentResult,
    experiment_loop qobj circuits experiment_results = Returns rs ->
    Forall (fun circuit => Forall (fun operation => ~ unsupported operation)
                             (instructions circuit)) circuits
    /\ exists new, rs = experiment_results ++ new
                   /\ Forall2 (records qobj) circuits new.
Proof.
  induction circuits as [|circuit rest IH]; intros acc rs H; simpl in H.
  - inversion H. split; [constructor|]. exists []. rewrite app_nil_r.
    split; [reflexivity|constructor].
  - destruct (instruction_loop (instructions circuit) []) as [l|] eqn:Hl;
      [|discriminate H].
    cbn [bind] in H. apply instruction_loop_targets in Hl as [-> Hsup].
    rewrite app_nil_l in H.
    destruct (simulate_circuit qobj circuit _) as [er|] eqn:Hsim; [|discriminate H].
    cbn [bind] in H. apply simulate_circuit_records in Hsim.
    destruct (IH _ _ H) as (Hrest & new & -> & Hnew).
    split; [constructor; assumption|].
    exists (er :: new). rewrite <- app_assoc. split; [reflexivity|].
    constructor; assumption.
Qed.

Lemma experiment_loop_returns (qobj : Qobj) (circuits : list QobjExperiment) :
  Forall well_formed_circuit circuits ->
  Forall (fun circuit => Forall (fun operation => ~ unsupported operation)
                           (instructions circuit)) circuits ->
  Z.abs (config_shots qobj) < 2 ^ 1024 ->
  forall experiment_results,
    returns (experiment_loop qobj circuits experiment_results).
Proof.
  intros Hwf Hsup Hshots.
  induction circuits as [|circuit rest IH]; intros acc.
  - eexists; reflexivity.
  - inversion Hwf as [|? ? Hwf0 Hwf']; subst.
    inversion Hsup as [|? ? Hsup0 Hsup']; subst.
    cbn [experiment_loop].
    rewrite instruction_loop_returns.
    + cbn [bind]. rewrite app_nil_l.
      destruct (simulate_circuit_returns qobj circuit Hwf0 Hshots) as [er Her].
      rewrite Her. cbn [bind]. apply IH; assumption.
    + exact Hsup0.
    + eapply Forall_impl; [exact (proj2 Hwf0)|]. simpl.
      intros operation Hop Hh. destruct (Hop Hh) as (q & Hq & _).
      exists q. exact Hq.
Qed.

Lemma no_unsupported_Forall (qobj : Qobj) :
  ~ has_unsupported qobj ->
  Forall (fun circuit => Forall (fun operation => ~ unsupported operation)
                           (instructions circuit)) (experiments qobj).
Proof.
  unfold has_unsupported. intros Hno.
  apply Forall_Exists_neg in Hno.
  eapply Forall_impl; [exact Hno|]. simpl.
  intros circuit Hc. apply Forall_Exists_neg. exact Hc.
Qed.

Lemma instruction_loop_heads (operations : list QobjInstruction) :
  forall list_of_qubits l : list Z,
    instruction_loop operations list_of_qubits = Returns l ->
    Forall (fun operation => name operation = "h" -> is_Some (head (qubits operation)))
      operations.
Proof.
  induction operations as [|operation rest IH]; intros l0 l H; simpl in H.
  - constructor.
  - destruct (truthy (conditional operation)); [discriminate H|].
    destruct (bool_decide_reflect (name operation = "h")) as [Hh|Hh]; cbn [negb] in H.
    + destruct (getitem (qubits operation) 0) as [q|] eqn:Hq; [|discriminate H].
      cbn [bind] in H. apply getitem_0_head in Hq.
      constructor; [intros _; exists q; exact Hq|eapply IH; exact H].
    + destruct (bool_decide (name operation = "measure")); [|discriminate H].
      constructor; [intros Hh'; contradiction|eapply IH; exact H].
Qed.

Lemma instruction_loop_skip_measure (operations : list QobjInstruction) :
  forall list_of_qubits l : list Z,
    instruction_loop operations list_of_qubits = Returns l ->
    instruction_loop
      (filter (fun operation => name operation <> "measure") operations)
      list_of_qubits
    = Returns l.
Proof.
  induction operations as [|operation rest IH]; intros l0 l H.
  - exact H.
  - rewrite filter_cons. cbn [instruction_loop] in H.
    destruct (truthy (conditional operation)) eqn:Hc; [discriminate H|].
    destruct (bool_decide_reflect (name operation = "h")) as [Hh|Hh]; cbn [negb] in H.
    + rewrite decide_True by (rewrite Hh; discriminate).
      cbn [instruction_loop]. rewrite Hc, bool_decide_true by exact Hh.
      cbn [negb].
      destruct (getitem (qubits operation) 0) as [q|]; [|discriminate H].
      cbn [bind] in *. apply IH, H.
    + destruct (bool_decide_reflect (name operation = "measure")) as [Hm|Hm];
        [|discriminate H].
      rewrite decide_False by (intros Hne; apply Hne, Hm).
      apply IH, H.
Qed.

(** ** The backend as a whole *)

Lemma run_unsupported_raises (self : HadamardSimulator) (qobj : Qobj) :
  has_unsupported qobj -> raises (HadamardSimulator_.run self qobj).
Proof.
  intros Hex. unfold HadamardSimulator_.run.
  destruct (experiment_loop qobj (experiments qobj) []) as [rs|e] eqn:H;
    [|exists e; reflexivity].
  apply experiment_loop_records in H as [Hsup _].
  unfold has_unsupported in Hex.
  apply Exists_exists in Hex as (circuit & Hin & Hu).
  rewrite Forall_forall in Hsup. specialize (Hsup circuit Hin).
  apply Forall_Exists_neg in Hsup. contradiction.
Qed.

Lemma run_supported_returns (self : HadamardSimulator) (qobj : Qobj) :
  Forall well_formed_circuit (experiments qobj) ->
  Z.abs (config_shots qobj) < 2 ^ 1024 ->
  ~ has_unsupported qobj ->
  returns (HadamardSimulator_.run self qobj).
Proof.
  intros Hwf Hshots Hno. unfold HadamardSimulator_.run.
  destruct (experiment_loop_returns qobj (experiments qobj) Hwf
              (no_unsupported_Forall qobj Hno) Hshots []) as [rs Hrs].
  rewrite Hrs. eexists; reflexivity.
Qed.

Lemma returns_not_raises {A : Type} (c : outcome A) : returns c -> ~ raises c.
Proof. intros [a ->] [e He]. discriminate He. Qed.

Lemma compatible_false (number_of_qubits : Z) (list_of_qubits : list Z) (i q : Z) :
  0 <= q < number_of_qubits ->
  Z.testbit i q = true ->
  odd_qubit list_of_qubits q = false ->
  compatible number_of_qubits list_of_qubits i = false.
Proof.
  intros Hq Hbit Hodd. unfold compatible.
  destruct (forallb _ _) eqn:Hall; [|reflexivity].
  rewrite forallb_forall in Hall. specialize (Hall q).
  rewrite Hbit, Hodd in Hall. symmetry. apply Hall.
  apply list_elem_of_In, list_elem_of_lookup. exists (Z.to_nat q).
  rewrite lookup_range by lia. f_equal. lia.
Qed.

Lemma run_hadamard_simulator_lookup (number_of_qubits : Z)
    (list_of_qubits : list Z) (shots : Z) (result : list Z) :
  0 <= number_of_qubits ->
  valid_qubits number_of_qubits list_of_qubits ->
  run_hadamard_simulator number_of_qubits list_of_qubits shots = Returns result ->
  exists t, forall i, 0 <= i < 2 ^ number_of_qubits ->
    result !! Z.to_nat i = Some (entry number_of_qubits list_of_qubits t i).
Proof.
  intros Hn Hv Hrun.
  rewrite run_hadamard_simulator_closed_form in Hrun by assumption.
  assert (Hentries : exists t, result = entry number_of_qubits list_of_qubits t
                                          <$> range (2 ^ number_of_qubits)).
  { destruct (odd_qubits number_of_qubits list_of_qubits =? 0).
    - exists 0. congruence.
    - destruct (int_truediv_pow2 _ _) as [t|]; [|discriminate Hrun].
      exists t. cbn [bind] in Hrun. congruence. }
  destruct Hentries as [t ->]. exists t. intros i Hi.
  rewrite list_lookup_fmap, lookup_range by lia.
  simpl. rewrite Z2Nat.id by lia. reflexivity.
Qed.

(** For a number of shots a float holds exactly, the count of a
    compatible basis state is [k * (shots // 2**(1+k))]. *)
Lemma run_hadamard_simulator_counts (number_of_qubits : Z)
    (list_of_qubits : list Z) (shots : Z) :
  0 <= number_of_qubits ->
  valid_qubits number_of_qubits list_of_qubits ->
  0 <= shots < 2 ^ 53 ->
  run_hadamard_simulator number_of_qubits list_of_qubits shots
  = Returns (entry number_of_qubits list_of_qubits
               (shots / 2 ^ (1 + odd_qubits number_of_qubits list_of_qubits))
             <$> range (2 ^ number_of_qubits)).
Proof.
  intros Hn Hv Hshots. apply run_hadamard_simulator_entries; [exact Hn|exact Hv|].
  intros _. apply int_truediv_pow2_exact; [exact Hshots|].
  unfold odd_qubits. lia.
Qed.

(** * The claims *)

(** C1.  The claim gives a compatible basis state the count
    [shots / 2**k], [k] being the number of odd qubits.  The code adds
    [int(shots / 2**(1+k))] once per odd qubit, which is the claimed count
    only for [k = 2]: with one Hadamard gate on one qubit and 1024 shots it
    returns 256 for each of the two states where the claim (and the
    docstring, which promises the number of shots measured in each state)
    has 512, and with no gate at all it returns 0 for the state 0 where the
    claim has all 1024 shots. *)
Theorem run_hadamard_simulator_loses_shots :
  (run_hadamard_simulator 1 [0] 1024 = Returns [256; 256]
   /\ odd_qubits 1 [0] = 1
   /\ compatible 1 [0] 0 = true /\ compatible 1 [0] 1 = true
   /\ 1024 / 2 ^ odd_qubits 1 [0] = 512)
  /\ (run_hadamard_simulator 1 [] 1024 = Returns [0; 0]
      /\ odd_qubits 1 [] = 0
      /\ compatible 1 [] 0 = true
      /\ 1024 / 2 ^ odd_qubits 1 [] = 1024).
Proof. vm_compute. repeat split; reflexivity. Qed.

(** C4.  For [number_of_qubits >= 0] and qubits within range, a returned
    list has exactly [2**number_of_qubits] entries, one per basis state;
    entry [i] is the count of the basis state in which qubit [q] has the
    value of bit [q] of [i] (character [q] of the state's string is that
    bit): it is [k] times the quotient [t = int(shots / 2**(1+k))] the
    code computes when every 1-bit of [i] lies on one of the [k] qubits
    that appear an odd number of times, and 0 otherwise; and the call
    returns whenever the number of shots is below [2**1024] in absolute
    value. *)
Theorem run_hadamard_simulator_enumerates (number_of_qubits : Z)
    (list_of_qubits : list Z) (shots : Z) :
  0 <= number_of_qubits ->
  valid_qubits number_of_qubits list_of_qubits ->
  (forall result,
      run_hadamard_simulator number_of_qubits list_of_qubits shots = Returns result ->
      Z.of_nat (length result) = 2 ^ number_of_qubits
      /\ exists t,
           (odd_qubits number_of_qubits list_of_qubits <> 0 ->
            int_truediv_pow2 shots (1 + odd_qubits number_of_qubits list_of_qubits)
            = Returns t)
           /\ forall i, 0 <= i < 2 ^ number_of_qubits ->
                result !! Z.to_nat i
                = Some (if forallb (fun q => implb (Z.testbit i q)
                                               (Z.odd (count q list_of_qubits)))
                             (range number_of_qubits)
                        then odd_qubits number_of_qubits list_of_qubits * t
                        else 0))
  /\ (forall i q, 0 <= i -> 0 <= q < number_of_qubits ->
        basis_state_of number_of_qubits i !! Z.to_nat q
        = Some (digit (Z.testbit i q)))
  /\ (Z.abs shots < 2 ^ 1024 ->
      returns (run_hadamard_simulator number_of_qubits list_of_qubits shots)).
Proof.
  intros Hn Hv. split; [|split].
  - intros result Hrun. split.
    + apply (run_hadamard_simulator_length _ _ _ _ Hrun).
    + rewrite run_hadamard_simulator_closed_form in Hrun by assumption.
      assert (Hentries :
                exists t,
                  (odd_qubits number_of_qubits list_of_qubits <> 0 ->
                   int_truediv_pow2 shots
                     (1 + odd_qubits number_of_qubits list_of_qubits) = Returns t)
                  /\ result = entry number_of_qubits list_of_qubits t
                              <$> range (2 ^ number_of_qubits)).
      { destruct (Z.eqb_spec (odd_qubits number_of_qubits list_of_qubits) 0)
          as [Hk|Hk].
        - exists 0. split; [contradiction|congruence].
        - destruct (int_truediv_pow2 _ _) as [t|]; [|discriminate Hrun].
          exists t. cbn [bind] in Hrun. split; [reflexivity|congruence]. }
      destruct Hentries as (t & Ht & ->). exists t. split; [exact Ht|].
      intros i Hi. rewrite list_lookup_fmap, lookup_range by lia.
      simpl. rewrite Z2Nat.id by lia. reflexivity.
  - intros i q Hi Hq. rewrite basis_state_lookup by lia.
    rewrite Z2Nat.id by lia. reflexivity.
  - intros Hshots. apply run_hadamard_simulator_total; assumption.
Qed.

Lemma run_hadamard_simulator_enumerates_witness :
  0 <= 4 /\ valid_qubits 4 [3; 1; 3; 2]
  /\ run_hadamard_simulator 4 [3; 1; 3; 2] 1024 = Returns notebook_counts
  /\ Z.of_nat (length notebook_counts) = 2 ^ 4
  /\ exists t,
       (odd_qubits 4 [3; 1; 3; 2] <> 0 ->
        int_truediv_pow2 1024 (1 + odd_qubits 4 [3; 1; 3; 2]) = Returns t)
       /\ notebook_counts !! Z.to_nat 6 = Some (odd_qubits 4 [3; 1; 3; 2] * t)
       /\ notebook_counts !! Z.to_nat 1 = Some 0.
Proof.
  assert (H0 : 0 <= 4) by lia.
  assert (Hv : valid_qubits 4 [3; 1; 3; 2])
    by (unfold valid_qubits; repeat constructor; lia).
  assert (Hrun : run_hadamard_simulator 4 [3; 1; 3; 2] 1024 = Returns notebook_counts)
    by (vm_compute; reflexivity).
  split; [exact H0|]. split; [exact Hv|]. split; [exact Hrun|].
  destruct (proj1 (run_hadamard_simulator_enumerates 4 [3; 1; 3; 2] 1024 H0 Hv)
              notebook_counts Hrun) as (Hlen & t & Ht & Hentries).
  split; [exact Hlen|]. exists t. split; [exact Ht|]. split.
  - rewrite (Hentries 6) by (simpl; lia). reflexivity.
  - rewrite (Hentries 1) by (simpl; lia). reflexivity.
Defined.

(** C8.  For [number_of_qubits >= 0] and qubits within range, a basis
    state with a 1-bit on a qubit that appears an even number of times
    (zero times included) has the count 0 in a returned list; and the call
    returns whenever the number of shots is below [2**1024] in absolute
    value. *)
Theorem run_hadamard_simulator_even_qubit_zero (number_of_qubits : Z)
    (list_of_qubits : list Z) (shots : Z) :
  0 <= number_of_qubits ->
  valid_qubits number_of_qubits list_of_qubits ->
  (forall result i q,
      run_hadamard_simulator number_of_qubits list_of_qubits shots = Returns result ->
      0 <= i < 2 ^ number_of_qubits ->
      0 <= q < number_of_qubits ->
      Z.testbit i q = true ->
      Z.even (count q list_of_qubits) = true ->
      result !! Z.to_nat i = Some 0)
  /\ (Z.abs shots < 2 ^ 1024 ->
      returns (run_hadamard_simulator number_of_qubits list_of_qubits shots)).
Proof.
  intros Hn Hv. split.
  - intros result i q Hrun Hi Hq Hbit Heven.
    destruct (run_hadamard_simulator_lookup _ _ _ _ Hn Hv Hrun) as [t Ht].
    rewrite (Ht i Hi). unfold entry.
    rewrite (compatible_false number_of_qubits list_of_qubits i q Hq Hbit);
      [reflexivity|].
    unfold odd_qubit. rewrite <- Z.negb_even, Heven. reflexivity.
  - intros Hshots. apply run_hadamard_simulator_total; assumption.
Qed.

Lemma run_hadamard_simulator_even_qubit_zero_witness :
  0 <= 4 /\ valid_qubits 4 [3; 1; 3; 2]
  /\ run_hadamard_simulator 4 [3; 1; 3; 2] 1024 = Returns notebook_counts
  /\ Z.testbit 8 3 = true /\ Z.even (count 3 [3; 1; 3; 2]) = true
  /\ notebook_counts !! Z.to_nat 8 = Some 0.
Proof.
  assert (H0 : 0 <= 4) by lia.
  assert (Hv : valid_qubits 4 [3; 1; 3; 2])
    by (unfold valid_qubits; repeat constructor; lia).
  assert (Hrun : run_hadamard_simulator 4 [3; 1; 3; 2] 1024 = Returns notebook_counts)
    by (vm_compute; reflexivity).
  assert (Hbit : Z.testbit 8 3 = true) by reflexivity.
  assert (Heven : Z.even (count 3 [3; 1; 3; 2]) = true) by reflexivity.
  split; [exact H0|]. split; [exact Hv|]. split; [exact Hrun|].
  split; [exact Hbit|]. split; [exact Heven|].
  apply (proj1 (run_hadamard_simulator_even_qubit_zero 4 [3; 1; 3; 2] 1024 H0 Hv)
           notebook_counts 8 3 Hrun); [simpl; lia|lia|exact Hbit|exact Heven].
Defined.

(** C9, as stated, fails: the precondition of the claim holds, and the
    division of the simulator overflows on a number of shots of 1031
    bits. *)
Lemma run_hadamard_simulator_overflows :
  0 <= 1 /\ valid_qubits 1 [0]
  /\ run_hadamard_simulator 1 [0] (2 ^ 1030) = Raises OverflowError.
Proof.
  split; [lia|]. split; [repeat constructor; lia|].
  vm_compute. reflexivity.
Qed.

(** C9, amended.  For [number_of_qubits >= 0] and qubits within range,
    every list index of the call is within bounds: the only exception the
    call can raise is the [OverflowError] of its division, and it raises
    none and returns when the number of shots is below [2**1024] in
    absolute value. *)
Theorem run_hadamard_simulator_safe (number_of_qubits : Z)
    (list_of_qubits : list Z) (shots : Z) :
  0 <= number_of_qubits ->
  valid_qubits number_of_qubits list_of_qubits ->
  (forall e,
      run_hadamard_simulator number_of_qubits list_of_qubits shots = Raises e ->
      e = OverflowError)
  /\ (Z.abs shots < 2 ^ 1024 ->
      returns (run_hadamard_simulator number_of_qubits list_of_qubits shots)).
Proof.
  intros Hn Hv. split.
  - intros e Hrun.
    rewrite run_hadamard_simulator_closed_form in Hrun by assumption.
    destruct (odd_qubits number_of_qubits list_of_qubits =? 0); [discriminate Hrun|].
    unfold int_truediv_pow2 in Hrun.
    destruct (2 ^ _ <=? _); cbn [bind] in Hrun; congruence.
  - intros Hshots. apply run_hadamard_simulator_total; assumption.
Qed.

Lemma run_hadamard_simulator_safe_witness :
  0 <= 4 /\ valid_qubits 4 [3; 1; 3; 2] /\ Z.abs 1024 < 2 ^ 1024
  /\ returns (run_hadamard_simulator 4 [3; 1; 3; 2] 1024).
Proof.
  assert (H0 : 0 <= 4) by lia.
  assert (Hv : valid_qubits 4 [3; 1; 3; 2])
    by (unfold valid_qubits; repeat constructor; lia).
  assert (Hs : Z.abs 1024 < 2 ^ 1024) by reflexivity.
  split; [exact H0|]. split; [exact Hv|]. split; [exact Hs|].
  apply (proj2 (run_hadamard_simulator_safe 4 [3; 1; 3; 2] 1024 H0 Hv) Hs).
Defined.

Lemma unsupported_iff_conditional_or_other_gate (operation : QobjInstruction) :
  conditional operation <> Some 0 ->
  unsupported operation <-> conditional_or_other_gate operation.
Proof.
  intros Hz. unfold unsupported, conditional_or_other_gate, is_conditional, truthy.
  destruct (conditional operation) as [c|].
  - destruct (Z.eqb_spec c 0) as [->|Hc]; [contradiction|]. cbn [negb].
    split; intros _; left; [eexists|]; reflexivity.
  - split; (intros [H|H]; [|right; exact H]).
    + discriminate H.
    + destruct H as [c Hc]. discriminate Hc.
Qed.

Lemma has_unsupported_iff (qobj : Qobj) :
  no_zero_conditional qobj ->
  has_unsupported qobj <-> has_conditional_or_other_gate qobj.
Proof.
  unfold no_zero_conditional, has_unsupported, has_conditional_or_other_gate.
  intros Hz. rewrite !Exists_exists. rewrite Forall_forall in Hz.
  split; intros (circuit & Hc & Hex); exists circuit; (split; [exact Hc|]);
    specialize (Hz circuit Hc); rewrite Forall_forall in Hz;
    rewrite Exists_exists in *; destruct Hex as (operation & Hop & Hu);
    exists operation; (split; [exact Hop|]);
    apply (unsupported_iff_conditional_or_other_gate operation (Hz operation Hop));
    exact Hu.
Qed.

(** C2, as stated, fails: no instruction of this qobj is conditional or
    has a name other than ['h'] and ['measure'], and [run] raises (the
    Hadamard gate is on a qubit the circuit does not have). *)
Lemma run_raises_on_supported_gates :
  ~ has_conditional_or_other_gate out_of_range_qobj
  /\ HadamardSimulator_.run (HadamardSimulator_.__init__ None) out_of_range_qobj
     = Raises IndexError.
Proof.
  split; [|vm_compute; reflexivity].
  unfold has_conditional_or_other_gate. intros H.
  apply Exists_exists in H as (circuit & Hc & H).
  simpl in Hc. apply list_elem_of_singleton in Hc as ->.
  apply Exists_exists in H as (operation & Hop & Hu).
  simpl in Hop. apply list_elem_of_singleton in Hop as ->.
  destruct Hu as [[c Hc]|[Hh _]]; [discriminate Hc|]. apply Hh. reflexivity.
Qed.

(** C2, amended.  For a qobj whose circuits have a non-negative number of
    qubits and Hadamard gates on qubits of the circuit, whose number of
    shots is below [2**1024] in absolute value, and in which no
    [conditional] attribute has the value 0, [run] raises if and only if
    some instruction of some experiment is conditional or has a name other
    than ['h'] and ['measure']; when there is no such instruction, [run]
    returns a job. *)
Theorem run_raises_iff_conditional_or_other_gate (self : HadamardSimulator)
    (qobj : Qobj) :
  Forall well_formed_circuit (experiments qobj) ->
  Z.abs (config_shots qobj) < 2 ^ 1024 ->
  no_zero_conditional qobj ->
  (raises (HadamardSimulator_.run self qobj) <-> has_conditional_or_other_gate qobj)
  /\ (~ has_conditional_or_other_gate qobj ->
      returns (HadamardSimulator_.run self qobj)).
Proof.
  intros Hwf Hshots Hz.
  pose proof (has_unsupported_iff qobj Hz) as Hiff.
  assert (Hret : ~ has_conditional_or_other_gate qobj ->
                 returns (HadamardSimulator_.run self qobj)).
  { intros Hno. apply run_supported_returns; [exact Hwf|exact Hshots|].
    intros Hu. apply Hno, Hiff, Hu. }
  split; [split|exact Hret].
  - intros Hraises.
    destruct (decide (has_conditional_or_other_gate qobj)) as [Hu|Hno]; [exact Hu|].
    destruct (returns_not_raises _ (Hret Hno) Hraises).
  - intros Hu. apply run_unsupported_raises, Hiff, Hu.
Qed.

Lemma run_raises_iff_conditional_or_other_gate_witness :
  Forall well_formed_circuit (experiments notebook_qobj)
  /\ Z.abs (config_shots notebook_qobj) < 2 ^ 1024
  /\ no_zero_conditional notebook_qobj
  /\ (raises (HadamardSimulator_.run (HadamardSimulator_.__init__ None) notebook_qobj)
      <-> has_conditional_or_other_gate notebook_qobj).
Proof.
  assert (Hwf : Forall well_formed_circuit (experiments notebook_qobj)).
  { repeat constructor; simpl; try lia;
      intros Hh; first [discriminate Hh|eexists; split; [reflexivity|lia]]. }
  assert (Hs : Z.abs (config_shots notebook_qobj) < 2 ^ 1024) by reflexivity.
  assert (Hz : no_zero_conditional notebook_qobj)
    by (repeat constructor; discriminate).
  split; [exact Hwf|]. split; [exact Hs|]. split; [exact Hz|].
  apply (proj1 (run_raises_iff_conditional_or_other_gate
                  (HadamardSimulator_.__init__ None) notebook_qobj Hwf Hs Hz)).
Defined.

(** C7.  Each of [cancel], [status] and [submit] returns [None] and
    leaves the job, with its result and its backend, as it was. *)
Theorem HadamardJob_inert (job : HadamardJob) :
  HadamardJob_.cancel job = Returns (PyNone, job)
  /\ HadamardJob_.status job = Returns (PyNone, job)
  /\ HadamardJob_.submit job = Returns (PyNone, job).
Proof. repeat split. Qed.

(** C10.  When the loop over the instructions of a circuit completes,
    the list it has built holds the first target qubit of each ['h']
    instruction, in the order of the instructions; the ['measure']
    instructions add nothing to it (the loop builds the same list without
    them); and this list is what [run_hadamard_simulator] is called
    with. *)
Theorem run_collects_hadamard_targets (qobj : Qobj) (circuit : QobjExperiment)
    (rest : list QobjExperiment) (experiment_results : list ExperimentResult)
    (list_of_qubits : list Z) :
  instruction_loop (instructions circuit) [] = Returns list_of_qubits ->
  list_of_qubits = hadamard_targets (instructions circuit)
  /\ Forall2 (fun operation q => head (qubits operation) = Some q)
       (filter (fun operation => name operation = "h") (instructions circuit))
       list_of_qubits
  /\ instruction_loop
       (filter (fun operation => name operation <> "measure") (instructions circuit))
       []
     = Returns list_of_qubits
  /\ experiment_loop qobj (circuit :: rest) experiment_results
     = (let! experiment_result :=
          (let! counts := run_hadamard_simulator (config_n_qubits circuit)
                            list_of_qubits (config_shots qobj) in
           let! formatted_counts :=
             format_loop counts (range (2 ^ config_n_qubits circuit)) ∅ in
           Returns {| er_name := header_name (header circuit);
                      er_success := true;
                      er_shots := config_shots qobj;
                      er_counts := formatted_counts;
                      er_header := as_dict (header circuit) |}) in
        experiment_loop qobj rest (experiment_results ++ [experiment_result])).
Proof.
  intros Hloop.
  pose proof (instruction_loop_targets _ _ _ Hloop) as [Heq _].
  rewrite app_nil_l in Heq. split; [exact Heq|]. split; [|split].
  - rewrite Heq. apply hadamard_targets_filter.
    eapply instruction_loop_heads. exact Hloop.
  - apply instruction_loop_skip_measure. exact Hloop.
  - cbn [experiment_loop]. rewrite Hloop. reflexivity.
Qed.

Lemma run_collects_hadamard_targets_witness :
  instruction_loop (instructions notebook_circuit) [] = Returns [3; 1; 3; 2]
  /\ [3; 1; 3; 2] = hadamard_targets (instructions notebook_circuit).
Proof.
  assert (Hloop : instruction_loop (instructions notebook_circuit) []
                  = Returns [3; 1; 3; 2]) by reflexivity.
  split; [exact Hloop|].
  apply (proj1 (run_collects_hadamard_targets notebook_qobj notebook_circuit [] []
                  [3; 1; 3; 2] Hloop)).
Defined.

(** C3, as stated, fails: the empty string is a name given to
    [backends], no backend has that name, and the whole list comes
    back. *)
Lemma backends_empty_name :
  (HadamardProvider_backends filter_backends_sdk HadamardProvider_init
     (Some "") None ()).1
  = [HadamardSimulator_.__init__ (Some TheHadamardProvider)]
  /\ filter (fun backend => HadamardSimulator_.name backend = "")
       (_backends HadamardProvider_init)
     = [].
Proof. split; reflexivity. Qed.

(** C3, amended.  With no [filters] and no keyword argument (where
    [filter_backends] hands its list back), [backends] returns the members
    of the provider's list whose [name()] equals [name] when [name] is a
    non-empty string, and the whole list when [name] is [None] or the empty
    string; the provider is left as it was, and the list the notebook's
    provider holds is a single [HadamardSimulator]. *)
Theorem backends_filters_static_list {kwargs : Type}
    (filter_backends : list HadamardSimulator ->
                       option (HadamardSimulator -> bool) -> kwargs ->
                       list HadamardSimulator)
    (kw : kwargs) (self : HadamardProvider) (name : option string) :
  (forall backends, filter_backends backends None kw = backends) ->
  HadamardProvider_backends filter_backends self name None kw
  = (match name with
     | Some s =>
         if decide (s = "") then _backends self
         else filter (fun backend => HadamardSimulator_.name backend = s)
                (_backends self)
     | None => _backends self
     end, self)
  /\ _backends HadamardProvider_init
     = [HadamardSimulator_.__init__ (Some TheHadamardProvider)].
Proof.
  intros Hdefault. split; [|reflexivity].
  unfold HadamardProvider_backends. rewrite Hdefault. f_equal.
  destruct name as [s|]; [|reflexivity]. unfold name_given.
  destruct (decide (s = "")) as [->|Hne].
  - reflexivity.
  - rewrite bool_decide_false by exact Hne. cbn [negb].
    apply list_filter_iff. intros backend. split; congruence.
Qed.

Lemma backends_filters_static_list_witness :
  (forall backends, filter_backends_sdk backends None () = backends)
  /\ HadamardProvider_backends filter_backends_sdk HadamardProvider_init
       (Some "hadamard_simulator") None ()
     = ([HadamardSimulator_.__init__ (Some TheHadamardProvider)],
        HadamardProvider_init).
Proof.
  assert (Hdefault : forall backends, filter_backends_sdk backends None () = backends)
    by reflexivity.
  split; [exact Hdefault|].
  apply (proj1 (backends_filters_static_list filter_backends_sdk ()
                  HadamardProvider_init (Some "hadamard_simulator") Hdefault)).
Defined.

(** C5.  When [run] returns a job, the job already holds the result:
    [result()] hands it back at once and leaves the job as it is; the
    result has [success] true and holds, for each experiment of the qobj
    and in their order, a record with [success] true, the qobj's number of
    shots and the nonzero counts the simulator computed for the qubits of
    the experiment's Hadamard gates. *)
Theorem run_result_precomputed (self : HadamardSimulator) (qobj : Qobj)
    (job : HadamardJob) :
  HadamardSimulator_.run self qobj = Returns job ->
  exists res,
    _result job = Some res
    /\ HadamardJob_.result job = Returns (PyResult res, job)
    /\ success res = true
    /\ Forall2 (records qobj) (experiments qobj) (results res).
Proof.
  unfold HadamardSimulator_.run. intros H.
  destruct (experiment_loop qobj (experiments qobj) []) as [rs|] eqn:Hloop;
    [|discriminate H].
  cbn [bind] in H. injection H as <-.
  apply experiment_loop_records in Hloop as (_ & new & -> & Hnew).
  exists (Result_of new). repeat split. exact Hnew.
Qed.

Lemma run_result_precomputed_witness :
  HadamardSimulator_.run (HadamardSimulator_.__init__ None) one_qubit_qobj
  = Returns one_qubit_job
  /\ exists res,
       _result one_qubit_job = Some res
       /\ HadamardJob_.result one_qubit_job = Returns (PyResult res, one_qubit_job)
       /\ success res = true
       /\ Forall2 (records one_qubit_qobj) (experiments one_qubit_qobj)
            (results res).
Proof.
  assert (Hrun : HadamardSimulator_.run (HadamardSimulator_.__init__ None)
                   one_qubit_qobj = Returns one_qubit_job)
    by (vm_compute; reflexivity).
  split; [exact Hrun|].
  apply (run_result_precomputed _ _ _ Hrun).
Defined.

(** ** The call on list objects *)

Lemma parity_loop_obj_spec (list_of_qubits hadamard_list : nat) (l : list Z) :
  list_of_qubits <> hadamard_list ->
  forall (len a : nat) (hl : list Z) (store : gmap nat (list Z)),
    store !! list_of_qubits = Some l ->
    store !! hadamard_list = Some hl ->
    (a + len = length l)%nat ->
    parity_loop_obj store list_of_qubits hadamard_list (Z.of_nat <$> seq a len)
    = match parity_loop (drop a l) hl with
      | Returns hl' => Returns (<[hadamard_list := hl']> store)
      | Raises e => Raises e
      end.
Proof.
  intros Hne. induction len as [|len IH]; intros a hl store Hl Hhl Ha.
  - rewrite drop_ge by lia. simpl. rewrite insert_id by exact Hhl. reflexivity.
  - destruct (lookup_lt_is_Some_2 l a) as [q Hq]; [lia|].
    rewrite (drop_S _ _ _ Hq). cbn [seq fmap list_fmap parity_loop_obj parity_loop].
    unfold load at 1. rewrite Hl.
    rewrite (getitem_lookup l (Z.of_nat a) q (Nat2Z.is_nonneg a))
      by (rewrite Nat2Z.id; exact Hq).
    cbn [bind]. unfold load, store_item. rewrite Hhl.
    destruct (getitem hl q) as [h|e]; [|reflexivity]. cbn [bind].
    destruct (setitem hl q ((1 + h) mod 2)) as [hl1|e]; [|reflexivity]. cbn [bind].
    rewrite (IH (S a) hl1).
    + destruct (parity_loop _ hl1) as [hl'|e]; [|reflexivity].
      rewrite insert_insert_eq. reflexivity.
    + rewrite lookup_insert_ne by congruence. exact Hl.
    + apply lookup_insert_eq.
    + lia.
Qed.

Lemma qubit_loop_obj_spec (hadamard_list result : nat) (hl : list Z)
    (basis_state : list ascii) (shots i : Z) :
  hadamard_list <> result ->
  forall (qs : list Z) (res : list Z) (store : gmap nat (list Z)),
    store !! hadamard_list = Some hl ->
    store !! result = Some res ->
    qubit_loop_obj store hadamard_list basis_state shots i qs result
    = match qubit_loop hl basis_state shots i qs res with
      | Returns res' => Returns (<[result := res']> store)
      | Raises e => Raises e
      end.
Proof.
  intros Hne. induction qs as [|qubit rest IH]; intros res store Hhl Hres.
  - simpl. rewrite insert_id by exact Hres. reflexivity.
  - cbn [qubit_loop_obj qubit_loop]. unfold load, store_item, count_of.
    rewrite Hhl, Hres.
    destruct (getitem hl qubit) as [h|e]; [|reflexivity]. cbn [bind].
    destruct (if h =? 0 then _ else _) as [[|]|e]; cbn [bind]; [| |reflexivity].
    + destruct (setitem res i 0) as [res1|e]; reflexivity.
    + destruct (h =? 1).
      * destruct (getitem res i) as [old|e]; [|reflexivity]. cbn [bind].
        destruct (int_truediv_pow2 _ _) as [term|e]; [|reflexivity]. cbn [bind].
        destruct (setitem res i (old + term)) as [res1|e]; [|reflexivity].
        cbn [bind]. rewrite (IH res1).
        -- destruct (qubit_loop _ _ _ _ _ res1) as [res'|e]; [|reflexivity].
           rewrite insert_insert_eq. reflexivity.
        -- rewrite lookup_insert_ne by congruence. exact Hhl.
        -- apply lookup_insert_eq.
      * apply IH; assumption.
Qed.

Lemma basis_loop_obj_spec (number_of_qubits : Z) (hadamard_list result : nat)
    (hl : list Z) (shots : Z) :
  hadamard_list <> result ->
  forall (indices : list Z) (res : list Z) (store : gmap nat (list Z)),
    store !! hadamard_list = Some hl ->
    store !! result = Some res ->
    basis_loop_obj number_of_qubits store hadamard_list shots indices result
    = match basis_loop number_of_qubits hl shots indices res with
      | Returns res' => Returns (<[result := res']> store)
      | Raises e => Raises e
      end.
Proof.
  intros Hne. induction indices as [|i rest IH]; intros res store Hhl Hres.
  - simpl. rewrite insert_id by exact Hres. reflexivity.
  - cbn [basis_loop_obj basis_loop].
    rewrite (qubit_loop_obj_spec _ _ hl _ _ _ Hne _ res store Hhl Hres).
    destruct (qubit_loop _ _ _ _ _ res) as [res1|e]; [|reflexivity]. cbn [bind].
    rewrite (IH res1).
    + destruct (basis_loop _ _ _ _ res1) as [res'|e]; [|reflexivity].
      rewrite insert_insert_eq. reflexivity.
    + rewrite lookup_insert_ne by congruence. exact Hhl.
    + apply lookup_insert_eq.
Qed.

(** The call on objects does what [run_hadamard_simulator] does on the
    content of its argument, writes to the two objects it creates and to
    no other. *)
Lemma run_hadamard_simulator_obj_spec (store : gmap nat (list Z))
    (number_of_qubits : Z) (list_of_qubits : nat) (shots : Z) (l : list Z) :
  store !! list_of_qubits = Some l ->
  match run_hadamard_simulator number_of_qubits l shots with
  | Returns result =>
      exists r store1,
        run_hadamard_simulator_obj store number_of_qubits list_of_qubits shots
        = Returns (r, store1)
        /\ store !! r = None
        /\ store1 !! r = Some result
        /\ forall p, is_Some (store !! p) -> store1 !! p = store !! p
  | Raises e =>
      run_hadamard_simulator_obj store number_of_qubits list_of_qubits shots
      = Raises e
  end.
Proof.
  intros Hl. unfold run_hadamard_simulator_obj, run_hadamard_simulator, new_list.
  set (hlp := fresh (dom store)).
  assert (Hhlp : store !! hlp = None) by (apply not_elem_of_dom, is_fresh).
  assert (Hne : list_of_qubits <> hlp) by congruence.
  unfold len_of. rewrite lookup_insert_ne by congruence. rewrite Hl. cbn [bind].
  replace (range (Z.of_nat (length l))) with (Z.of_nat <$> seq 0 (length l))
    by (unfold range; rewrite Nat2Z.id; reflexivity).
  rewrite (parity_loop_obj_spec list_of_qubits hlp l Hne (length l) 0
             (list_mul 0 number_of_qubits));
    [|rewrite lookup_insert_ne by congruence; exact Hl
     |apply lookup_insert_eq|reflexivity].
  rewrite drop_0.
  destruct (parity_loop l (list_mul 0 number_of_qubits)) as [hl|e];
    [|reflexivity].
  cbn [bind]. rewrite insert_insert_eq.
  destruct (number_of_qubits <? 0); [reflexivity|].
  set (store2 := <[hlp := hl]> store).
  set (rp := fresh (dom store2)).
  assert (Hrp : store2 !! rp = None) by (apply not_elem_of_dom, is_fresh).
  assert (Hne2 : hlp <> rp).
  { intros Heq. rewrite <- Heq in Hrp. unfold store2 in Hrp.
    rewrite lookup_insert_eq in Hrp. discriminate Hrp. }
  rewrite (basis_loop_obj_spec number_of_qubits hlp rp hl shots Hne2 _
             (list_mul 0 (2 ^ number_of_qubits)));
    [|rewrite lookup_insert_ne by congruence; apply lookup_insert_eq
     |apply lookup_insert_eq].
  destruct (basis_loop _ _ _ _ _) as [result|e]; [|reflexivity].
  cbn [bind]. rewrite insert_insert_eq.
  assert (Hrp0 : store !! rp = None).
  { unfold store2 in Hrp. rewrite lookup_insert_ne in Hrp by exact Hne2. exact Hrp. }
  eexists _, _. split; [reflexivity|]. split; [exact Hrp0|].
  split; [apply lookup_insert_eq|].
  intros p [x Hp]. unfold store2.
  rewrite !lookup_insert_ne by congruence. reflexivity.
Qed.

(** C6.  A call, given a store of list objects and the reference
    [list_of_qubits] to one of them, writes only to the two lists it
    creates
    ([hadamard_list] and [result]): no object that existed before is
    changed, the argument included, and the list returned is a new
    object.  Its outcome is fixed by [number_of_qubits], the content of
    the argument and [shots], whatever else the store holds; so a second
    call from the store the first one left returns a list equal to the
    first, in an object of its own, and leaves the first list as it
    is. *)
Theorem run_hadamard_simulator_obj_stateless (store : gmap nat (list Z))
    (number_of_qubits : Z) (list_of_qubits : nat) (shots : Z)
    (l : list Z) (r : nat) (store1 : gmap nat (list Z)) :
  store !! list_of_qubits = Some l ->
  run_hadamard_simulator_obj store number_of_qubits list_of_qubits shots
  = Returns (r, store1) ->
  store !! r = None
  /\ (forall p, is_Some (store !! p) -> store1 !! p = store !! p)
  /\ (exists result,
        run_hadamard_simulator number_of_qubits l shots = Returns result
        /\ store1 !! r = Some result)
  /\ (forall (store' : gmap nat (list Z)) (list_of_qubits' : nat),
        store' !! list_of_qubits' = store !! list_of_qubits ->
        exists r' store1',
          run_hadamard_simulator_obj store' number_of_qubits list_of_qubits' shots
          = Returns (r', store1')
          /\ store1' !! r' = store1 !! r)
  /\ (exists r2 store2,
        run_hadamard_simulator_obj store1 number_of_qubits list_of_qubits shots
        = Returns (r2, store2)
        /\ store2 !! r2 = store1 !! r
        /\ r2 <> r
        /\ store2 !! r = store1 !! r).
Proof.
  intros Hl Hcall.
  pose proof (run_hadamard_simulator_obj_spec store number_of_qubits
                list_of_qubits shots l Hl) as Hspec.
  destruct (run_hadamard_simulator number_of_qubits l shots) as [result|e] eqn:Hrun.
  2:{ rewrite Hspec in Hcall. discriminate Hcall. }
  destruct Hspec as (r0 & store0 & Hcall0 & Hnew & Hres & Hframe).
  rewrite Hcall0 in Hcall. injection Hcall as <- <-.
  split; [exact Hnew|]. split; [exact Hframe|].
  split; [exists result; split; [reflexivity|exact Hres]|]. split.
  - intros store' lq' Hl'.
    rewrite Hl in Hl'.
    pose proof (run_hadamard_simulator_obj_spec store' number_of_qubits lq' shots l Hl')
      as Hspec'.
    rewrite Hrun in Hspec'.
    destruct Hspec' as (r' & store1' & Hcall' & _ & Hres' & _).
    exists r', store1'. split; [exact Hcall'|]. rewrite Hres, Hres'. reflexivity.
  - assert (Hl1 : store0 !! list_of_qubits = Some l)
      by (rewrite Hframe by (eexists; exact Hl); exact Hl).
    pose proof (run_hadamard_simulator_obj_spec store0 number_of_qubits
                  list_of_qubits shots l Hl1) as Hspec2.
    rewrite Hrun in Hspec2.
    destruct Hspec2 as (r2 & store2 & Hcall2 & Hnew2 & Hres2 & Hframe2).
    exists r2, store2. split; [exact Hcall2|].
    split; [rewrite Hres, Hres2; reflexivity|].
    split; [intros Heq; rewrite Heq, Hres in Hnew2; discriminate Hnew2|].
    apply Hframe2. eexists; exact Hres.
Qed.

Lemma run_hadamard_simulator_obj_stateless_witness :
  run_hadamard_simulator_obj {[ 0%nat := [3; 1; 3; 2] ]} 4 0%nat 1024
  = Returns (2%nat, <[ 2%nat := notebook_counts ]>
                      (<[ 1%nat := [0; 1; 1; 0] ]> {[ 0%nat := [3; 1; 3; 2] ]}))
  /\ exists r2 store2,
       run_hadamard_simulator_obj
         (<[ 2%nat := notebook_counts ]>
            (<[ 1%nat := [0; 1; 1; 0] ]> {[ 0%nat := [3; 1; 3; 2] ]})) 4 0%nat 1024
       = Returns (r2, store2)
       /\ store2 !! r2 = Some notebook_counts
       /\ r2 <> 2%nat.
Proof.
  assert (Hl : ({[ 0%nat := [3; 1; 3; 2] ]} : gmap nat (list Z)) !! 0%nat
               = Some [3; 1; 3; 2]) by reflexivity.
  assert (Hcall : run_hadamard_simulator_obj {[ 0%nat := [3; 1; 3; 2] ]} 4 0%nat 1024
                  = Returns (2%nat, <[ 2%nat := notebook_counts ]>
                                      (<[ 1%nat := [0; 1; 1; 0] ]>
                                         {[ 0%nat := [3; 1; 3; 2] ]})))
    by (vm_compute; reflexivity).
  split; [exact Hcall|].
  destruct (run_hadamard_simulator_obj_stateless _ _ _ _ _ _ _ Hl Hcall)
    as (_ & _ & _ & _ & r2 & store2 & Hcall2 & Hsame & Hne & _).
  exists r2, store2. split; [exact Hcall2|]. split; [|exact Hne].
  rewrite Hsame. apply lookup_insert_eq.
Defined.

(** ** The notebook's own runs *)

(** The call of the first cell, with the output the notebook records. *)
Example run_hadamard_simulator_notebook :
  run_hadamard_simulator 4 [3; 1; 3; 2] 1024 = Returns notebook_counts.
Proof. vm_compute. reflexivity. Qed.

(** The docstring's example of [hadamard_list]. *)
Example parity_loop_docstring :
  parity_loop [3; 1; 3; 4] (list_mul 0 5) = Returns [0; 1; 0; 0; 1].
Proof. reflexivity. Qed.

(** The counts the notebook prints for its circuit, ['0000'], ['0010'],
    ['0100'] and ['0110'] with 256 each, are the entries 0, 2, 4 and 6. *)
Example run_notebook_qobj :
  exists job res er,
    HadamardSimulator_.run (HadamardSimulator_.__init__ None) notebook_qobj
    = Returns job
    /\ _result job = Some res
    /\ results res = [er]
    /\ er_counts er
       = <["0x0" := 256]> (<["0x2" := 256]> (<["0x4" := 256]> (<["0x6" := 256]> ∅))).
Proof. do 3 eexists. vm_compute. repeat split; reflexivity. Qed.

(** * Further properties *)

(** ** Indices out of range, negative indices, a negative number of qubits *)

Lemma norm_index_in_range (len i : Z) :
  - len <= i < len ->
  norm_index len i = Some (Z.to_nat (normalize_qubit len i))
  /\ 0 <= normalize_qubit len i < len.
Proof.
  intros Hi. unfold norm_index, normalize_qubit.
  destruct (Z.ltb_spec i 0) as [Hneg|Hpos].
  - destruct (Z.leb_spec 0 (i + len)) as [_|?]; [|lia].
    destruct (Z.ltb_spec (i + len) len) as [_|?]; [|lia].
    split; [reflexivity|lia].
  - destruct (Z.leb_spec 0 i) as [_|?]; [|lia].
    destruct (Z.ltb_spec i len) as [_|?]; [|lia].
    split; [reflexivity|lia].
Qed.

Lemma norm_index_out_of_range (len i : Z) :
  ~ (- len <= i < len) -> norm_index len i = None.
Proof.
  intros Hi. unfold norm_index.
  destruct (Z.ltb_spec i 0) as [Hneg|Hpos].
  - destruct (Z.leb_spec 0 (i + len)) as [?|_]; [|reflexivity].
    destruct (Z.ltb_spec (i + len) len) as [?|_]; [lia|reflexivity].
  - destruct (Z.leb_spec 0 i) as [_|?]; [|lia].
    destruct (Z.ltb_spec i len) as [?|_]; [lia|reflexivity].
Qed.

Lemma parity_loop_normalize (list_of_qubits : list Z) :
  forall hadamard_list : list Z,
    Forall (fun q => - Z.of_nat (length hadamard_list) <= q
                     < Z.of_nat (length hadamard_list)) list_of_qubits ->
    parity_loop list_of_qubits hadamard_list
    = parity_loop (normalize_qubit (Z.of_nat (length hadamard_list)) <$> list_of_qubits)
        hadamard_list.
Proof.
  induction list_of_qubits as [|q rest IH]; intros hl Hq; [reflexivity|].
  inversion Hq as [|? ? Hq0 Hrest]; subst.
  destruct (norm_index_in_range _ _ Hq0) as [Hn Hrange].
  destruct (norm_index_in_range (Z.of_nat (length hl))
              (normalize_qubit (Z.of_nat (length hl)) q)) as [Hn' _]; [lia|].
  assert (Hsame : norm_index (Z.of_nat (length hl))
                    (normalize_qubit (Z.of_nat (length hl)) q)
                  = norm_index (Z.of_nat (length hl)) q).
  { rewrite Hn, Hn'. do 2 f_equal. unfold normalize_qubit at 1.
    destruct (Z.ltb_spec (normalize_qubit (Z.of_nat (length hl)) q) 0); [lia|].
    reflexivity. }
  cbn [fmap list_fmap parity_loop]. unfold getitem, setitem.
  rewrite Hsame, Hn.
  destruct (hl !! Z.to_nat (normalize_qubit (Z.of_nat (length hl)) q)) as [h|];
    [|reflexivity].
  cbn [bind].
  rewrite (IH (<[_:=_]> hl)) by (rewrite length_insert; exact Hrest).
  rewrite length_insert. reflexivity.
Qed.

Lemma parity_loop_out_of_range (list_of_qubits : list Z) :
  forall hadamard_list : list Z,
    Exists (fun q => ~ (- Z.of_nat (length hadamard_list) <= q
                        < Z.of_nat (length hadamard_list))) list_of_qubits ->
    parity_loop list_of_qubits hadamard_list = Raises IndexError.
Proof.
  induction list_of_qubits as [|q rest IH]; intros hl Hex.
  - inversion Hex.
  - cbn [parity_loop]. unfold getitem, setitem.
    destruct (decide (- Z.of_nat (length hl) <= q < Z.of_nat (length hl)))
      as [Hin|Hout].
    + destruct (norm_index_in_range _ _ Hin) as [-> Hrange].
      destruct (hl !! _) as [h|]; [|reflexivity]. cbn [bind].
      apply IH. rewrite length_insert.
      inversion Hex as [? ? Hq|? ? Hrest]; subst; [contradiction|exact Hrest].
    + rewrite norm_index_out_of_range by exact Hout. reflexivity.
Qed.

(** X1.  A qubit number that is no index of a list of
    [number_of_qubits] entries (it is [number_of_qubits] or more, or below
    [-number_of_qubits]) makes the call raise [IndexError], wherever it
    stands in the list and whatever the number of shots. *)
Theorem run_hadamard_simulator_IndexError (number_of_qubits : Z)
    (list_of_qubits : list Z) (shots : Z) :
  0 <= number_of_qubits ->
  Exists (fun q => q < - number_of_qubits \/ number_of_qubits <= q) list_of_qubits ->
  run_hadamard_simulator number_of_qubits list_of_qubits shots = Raises IndexError.
Proof.
  intros Hn Hex. unfold run_hadamard_simulator.
  rewrite parity_loop_out_of_range; [reflexivity|].
  unfold list_mul. rewrite length_replicate, Z2Nat.id by exact Hn.
  eapply Exists_impl; [exact Hex|]. simpl. intros q Hq. lia.
Qed.

Lemma run_hadamard_simulator_IndexError_witness :
  0 <= 4 /\ Exists (fun q => q < - 4 \/ 4 <= q) [3; 1; 4; 2]
  /\ run_hadamard_simulator 4 [3; 1; 4; 2] 1024 = Raises IndexError.
Proof.
  assert (H0 : 0 <= 4) by lia.
  assert (Hex : Exists (fun q => q < - 4 \/ 4 <= q) [3; 1; 4; 2]).
  { apply Exists_cons_tl, Exists_cons_tl, Exists_cons_hd. right. lia. }
  split; [exact H0|]. split; [exact Hex|].
  apply (run_hadamard_simulator_IndexError 4 [3; 1; 4; 2] 1024 H0 Hex).
Defined.

(** X2.  A negative qubit number from [-number_of_qubits] on is
    accepted and stands for the qubit counted from the end: the call
    gives what it gives for the list with every such number [q] replaced
    by [q + number_of_qubits]. *)
Theorem run_hadamard_simulator_negative_index (number_of_qubits : Z)
    (list_of_qubits : list Z) (shots : Z) :
  Forall (fun q => - number_of_qubits <= q < number_of_qubits) list_of_qubits ->
  valid_qubits number_of_qubits (normalize_qubit number_of_qubits <$> list_of_qubits)
  /\ run_hadamard_simulator number_of_qubits list_of_qubits shots
     = run_hadamard_simulator number_of_qubits
         (normalize_qubit number_of_qubits <$> list_of_qubits) shots.
Proof.
  intros Hq. split.
  - unfold valid_qubits. apply Forall_fmap. eapply Forall_impl; [exact Hq|].
    simpl. intros q Hin. apply (norm_index_in_range _ _ Hin).
  - destruct list_of_qubits as [|q rest]; [reflexivity|].
    assert (Hn : 0 <= number_of_qubits) by (inversion Hq; subst; lia).
    unfold run_hadamard_simulator.
    assert (Hlen : Z.of_nat (length (list_mul 0 number_of_qubits)) = number_of_qubits)
      by (unfold list_mul; rewrite length_replicate; lia).
    rewrite parity_loop_normalize by (rewrite Hlen; exact Hq).
    rewrite Hlen. reflexivity.
Qed.

Lemma run_hadamard_simulator_negative_index_witness :
  Forall (fun q => - 4 <= q < 4) [-1; 1; 3; -2]
  /\ run_hadamard_simulator 4 [-1; 1; 3; -2] 1024
     = run_hadamard_simulator 4 [3; 1; 3; 2] 1024.
Proof.
  assert (Hq : Forall (fun q => - 4 <= q < 4) [-1; 1; 3; -2])
    by (repeat constructor; lia).
  split; [exact Hq|].
  apply (proj2 (run_hadamard_simulator_negative_index 4 [-1; 1; 3; -2] 1024 Hq)).
Defined.

(** X3.  With a negative number of qubits, from [-2**31] on, the call
    never returns: it raises [TypeError] when the list of qubits is empty
    ([2**n] is then a float, by which a list cannot be multiplied) and
    [IndexError] otherwise ([hadamard_list] is empty). *)
Theorem run_hadamard_simulator_negative_qubits (number_of_qubits : Z)
    (list_of_qubits : list Z) (shots : Z) :
  - 2 ^ 31 <= number_of_qubits < 0 ->
  run_hadamard_simulator number_of_qubits list_of_qubits shots
  = Raises (match list_of_qubits with [] => TypeError | _ :: _ => IndexError end).
Proof.
  intros [_ Hn]. unfold run_hadamard_simulator.
  destruct list_of_qubits as [|q rest].
  - cbn [parity_loop bind].
    destruct (Z.ltb_spec number_of_qubits 0) as [_|?]; [reflexivity|lia].
  - rewrite parity_loop_out_of_range; [reflexivity|].
    apply Exists_cons_hd. unfold list_mul. rewrite length_replicate. lia.
Qed.

Lemma run_hadamard_simulator_negative_qubits_witness :
  - 2 ^ 31 <= -1 < 0
  /\ run_hadamard_simulator (-1) [] 1024 = Raises TypeError
  /\ run_hadamard_simulator (-1) [0] 1024 = Raises IndexError.
Proof.
  assert (Hn : - 2 ^ 31 <= -1 < 0) by (simpl; lia).
  split; [exact Hn|]. split.
  - apply (run_hadamard_simulator_negative_qubits (-1) [] 1024 Hn).
  - apply (run_hadamard_simulator_negative_qubits (-1) [0] 1024 Hn).
Defined.

(** ** What the counts are *)

(** X4.  After the first loop [hadamard_list] has one entry per qubit,
    1 for a qubit that appears an odd number of times in
    [list_of_qubits] and 0 for the others (the comment above the loop). *)
Theorem parity_loop_computes_parity (number_of_qubits : Z)
    (list_of_qubits : list Z) :
  valid_qubits number_of_qubits list_of_qubits ->
  exists hadamard_list,
    parity_loop list_of_qubits (list_mul 0 number_of_qubits) = Returns hadamard_list
    /\ length hadamard_list = Z.to_nat number_of_qubits
    /\ forall q, 0 <= q < number_of_qubits ->
         hadamard_list !! Z.to_nat q
         = Some (if Z.odd (count q list_of_qubits) then 1 else 0).
Proof.
  intros Hv. eexists. split; [apply parity_loop_fresh, Hv|]. split.
  - rewrite length_fmap. apply length_range.
  - intros q Hq. rewrite list_lookup_fmap, lookup_range by lia.
    simpl. rewrite Z2Nat.id by lia. reflexivity.
Qed.

Lemma parity_loop_computes_parity_witness :
  valid_qubits 5 [3; 1; 3; 4]
  /\ exists hadamard_list,
       parity_loop [3; 1; 3; 4] (list_mul 0 5) = Returns hadamard_list
       /\ hadamard_list !! Z.to_nat 3 = Some 0
       /\ hadamard_list !! Z.to_nat 4 = Some 1.
Proof.
  assert (Hv : valid_qubits 5 [3; 1; 3; 4])
    by (unfold valid_qubits; repeat constructor; lia).
  split; [exact Hv|].
  destruct (parity_loop_computes_parity 5 [3; 1; 3; 4] Hv) as (hl & Hrun & _ & Hhl).
  exists hl. split; [exact Hrun|]. split.
  - apply (Hhl 3). lia.
  - apply (Hhl 4). lia.
Defined.

(** X5.  For a number of shots from 0 to below [2**53] (which a float
    holds exactly) the call returns, and the count of the basis state [i]
    is [k * (shots // 2**(1+k))] when every 1-bit of [i] lies on a qubit
    that appears an odd number of times, and 0 otherwise, [k] being the
    number of such qubits. *)
Theorem run_hadamard_simulator_exact_counts (number_of_qubits : Z)
    (list_of_qubits : list Z) (shots : Z) :
  0 <= number_of_qubits ->
  valid_qubits number_of_qubits list_of_qubits ->
  0 <= shots < 2 ^ 53 ->
  exists result,
    run_hadamard_simulator number_of_qubits list_of_qubits shots = Returns result
    /\ Z.of_nat (length result) = 2 ^ number_of_qubits
    /\ forall i, 0 <= i < 2 ^ number_of_qubits ->
         result !! Z.to_nat i
         = Some (if compatible number_of_qubits list_of_qubits i
                 then odd_qubits number_of_qubits list_of_qubits
                      * (shots / 2 ^ (1 + odd_qubits number_of_qubits list_of_qubits))
                 else 0).
Proof.
  intros Hn Hv Hshots. eexists.
  split; [apply run_hadamard_simulator_counts; assumption|]. split.
  - rewrite length_fmap, length_range. apply Z2Nat.id, Z.pow_nonneg. lia.
  - intros i Hi. rewrite list_lookup_fmap, lookup_range by lia.
    simpl. rewrite Z2Nat.id by lia. reflexivity.
Qed.

Lemma run_hadamard_simulator_exact_counts_witness :
  0 <= 3 /\ valid_qubits 3 [0; 1; 2] /\ 0 <= 1000 < 2 ^ 53
  /\ exists result,
       run_hadamard_simulator 3 [0; 1; 2] 1000 = Returns result
       /\ result !! Z.to_nat 5 = Some 186.
Proof.
  assert (H0 : 0 <= 3) by lia.
  assert (Hv : valid_qubits 3 [0; 1; 2])
    by (unfold valid_qubits; repeat constructor; lia).
  assert (Hs : 0 <= 1000 < 2 ^ 53) by (split; [lia|reflexivity]).
  split; [exact H0|]. split; [exact Hv|]. split; [exact Hs|].
  destruct (run_hadamard_simulator_exact_counts 3 [0; 1; 2] 1000 H0 Hv Hs)
    as (result & Hrun & _ & Hres).
  exists result. split; [exact Hrun|].
  rewrite (Hres 5) by (simpl; lia). reflexivity.
Defined.

Lemma same_parity_same_outcome (number_of_qubits : Z)
    (list_of_qubits list_of_qubits' : list Z) (shots : Z) :
  valid_qubits number_of_qubits list_of_qubits ->
  valid_qubits number_of_qubits list_of_qubits' ->
  (forall q, 0 <= q < number_of_qubits ->
             Z.odd (count q list_of_qubits) = Z.odd (count q list_of_qubits')) ->
  run_hadamard_simulator number_of_qubits list_of_qubits shots
  = run_hadamard_simulator number_of_qubits list_of_qubits' shots.
Proof.
  intros Hv Hv' Hpar. unfold run_hadamard_simulator.
  rewrite !parity_loop_fresh by assumption.
  replace ((fun q => if odd_qubit list_of_qubits q then 1 else 0)
           <$> range number_of_qubits)
    with ((fun q => if odd_qubit list_of_qubits' q then 1 else 0)
          <$> range number_of_qubits); [reflexivity|].
  apply list_fmap_ext. intros j q Hj.
  pose proof (lookup_lt_Some _ _ _ Hj) as Hlt. rewrite length_range in Hlt.
  rewrite lookup_range in Hj by exact Hlt. injection Hj as <-.
  unfold odd_qubit. rewrite Hpar by lia. reflexivity.
Qed.

(** X6.  The call depends on [list_of_qubits] only through the parity
    of the number of times each qubit appears: two lists of qubits within
    range with the same parities give the same outcome, the same list of
    counts or the same exception. *)
Theorem run_hadamard_simulator_parity_only (number_of_qubits : Z)
    (list_of_qubits list_of_qubits' : list Z) (shots : Z) :
  valid_qubits number_of_qubits list_of_qubits ->
  valid_qubits number_of_qubits list_of_qubits' ->
  (forall q, 0 <= q < number_of_qubits ->
             Z.odd (count q list_of_qubits) = Z.odd (count q list_of_qubits')) ->
  run_hadamard_simulator number_of_qubits list_of_qubits shots
  = run_hadamard_simulator number_of_qubits list_of_qubits' shots.
Proof. apply same_parity_same_outcome. Qed.

Lemma run_hadamard_simulator_parity_only_witness :
  valid_qubits 4 [3; 1; 3; 2] /\ valid_qubits 4 [2; 1]
  /\ run_hadamard_simulator 4 [3; 1; 3; 2] 1024
     = run_hadamard_simulator 4 [2; 1] 1024.
Proof.
  assert (Hv : valid_qubits 4 [3; 1; 3; 2])
    by (unfold valid_qubits; repeat constructor; lia).
  assert (Hv' : valid_qubits 4 [2; 1])
    by (unfold valid_qubits; repeat constructor; lia).
  split; [exact Hv|]. split; [exact Hv'|].
  apply (run_hadamard_simulator_parity_only 4 [3; 1; 3; 2] [2; 1] 1024 Hv Hv').
  intros q Hq.
  assert (Hcases : q = 0 \/ q = 1 \/ q = 2 \/ q = 3) by lia.
  destruct Hcases as [->|[->|[->| ->]]]; reflexivity.
Defined.

Lemma count_Permutation (x : Z) (l l' : list Z) :
  l ≡ₚ l' -> count x l = count x l'.
Proof. intros Hp. unfold count. rewrite Hp. reflexivity. Qed.

(** X7.  The order of the gates does not matter, and two Hadamard gates
    on one qubit cancel: a permutation of [list_of_qubits] gives the same
    outcome, and so does the list with a qubit within range added
    twice. *)
Theorem run_hadamard_simulator_order_and_pairs (number_of_qubits : Z)
    (list_of_qubits list_of_qubits' : list Z) (q shots : Z) :
  valid_qubits number_of_qubits list_of_qubits ->
  list_of_qubits ≡ₚ list_of_qubits' ->
  0 <= q < number_of_qubits ->
  run_hadamard_simulator number_of_qubits list_of_qubits' shots
  = run_hadamard_simulator number_of_qubits list_of_qubits shots
  /\ run_hadamard_simulator number_of_qubits (q :: q :: list_of_qubits) shots
     = run_hadamard_simulator number_of_qubits list_of_qubits shots.
Proof.
  intros Hv Hp Hq. split.
  - apply same_parity_same_outcome.
    + unfold valid_qubits. rewrite <- Hp. exact Hv.
    + exact Hv.
    + intros q' _. rewrite (count_Permutation q' _ _ Hp). reflexivity.
  - apply same_parity_same_outcome.
    + repeat constructor; try lia. exact Hv.
    + exact Hv.
    + intros q' _. rewrite !count_cons.
      destruct (decide (q = q')); [|reflexivity].
      replace (1 + (1 + count q' list_of_qubits))
        with (count q' list_of_qubits + 2 * 1) by lia.
      apply Z.odd_add_mul_2.
Qed.

Lemma run_hadamard_simulator_order_and_pairs_witness :
  valid_qubits 4 [3; 1; 3; 2] /\ [3; 1; 3; 2] ≡ₚ [1; 3; 2; 3] /\ 0 <= 0 < 4
  /\ run_hadamard_simulator 4 [1; 3; 2; 3] 1024
     = run_hadamard_simulator 4 [3; 1; 3; 2] 1024.
Proof.
  assert (Hv : valid_qubits 4 [3; 1; 3; 2])
    by (unfold valid_qubits; repeat constructor; lia).
  assert (Hp : [3; 1; 3; 2] ≡ₚ [1; 3; 2; 3]).
  { etrans; [apply perm_swap|]. apply perm_skip, perm_skip, perm_swap. }
  assert (Hq : 0 <= 0 < 4) by lia.
  split; [exact Hv|]. split; [exact Hp|]. split; [exact Hq|].
  apply (proj1 (run_hadamard_simulator_order_and_pairs 4 [3; 1; 3; 2] [1; 3; 2; 3]
                  0 1024 Hv Hp Hq)).
Defined.

(** ** The total of the counts *)

Lemma sum_counts_indicator (P : Z -> bool) (c : Z) (xs : list Z) :
  sum_counts ((fun i => if P i then c else 0) <$> xs)
  = c * Z.of_nat (length (filter (fun i => P i = true) xs)).
Proof.
  induction xs as [|x xs IH]; [simpl; lia|].
  rewrite fmap_cons, filter_cons. cbn [sum_counts foldr].
  fold (sum_counts ((fun i => if P i then c else 0) <$> xs)). rewrite IH.
  destruct (P x); [rewrite decide_True by reflexivity
                  |rewrite decide_False by discriminate]; cbn [length]; lia.
Qed.

Lemma range_succ (n : nat) :
  range (Z.of_nat (S n)) = range (Z.of_nat n) ++ [Z.of_nat n].
Proof.
  unfold range. rewrite !Nat2Z.id, seq_S, fmap_app. reflexivity.
Qed.

Lemma range_double (m : Z) :
  0 <= m -> range (2 * m) = range m ++ ((fun i => i + m) <$> range m).
Proof.
  intros Hm. unfold range.
  replace (Z.to_nat (2 * m)) with (Z.to_nat m + Z.to_nat m)%nat by lia.
  rewrite seq_app, fmap_app. f_equal. cbn [Nat.add].
  replace (seq (Z.to_nat m) (Z.to_nat m))
    with (Nat.add (Z.to_nat m) <$> seq 0 (Z.to_nat m))
    by (rewrite fmap_add_seq, Nat.add_0_r; reflexivity).
  rewrite <- !list_fmap_compose. apply list_fmap_ext. intros j x _. simpl. lia.
Qed.

Lemma elem_of_range (n q : Z) : q ∈ range n -> 0 <= q < n.
Proof.
  unfold range. intros Hin. apply list_elem_of_fmap in Hin as (j & -> & Hj).
  apply elem_of_seq in Hj. lia.
Qed.

Lemma filter_ext_Forall {A : Type} (P Q : A -> Prop)
    `{!forall x, Decision (P x), !forall x, Decision (Q x)} (l : list A) :
  Forall (fun x => P x <-> Q x) l -> filter P l = filter Q l.
Proof.
  induction 1 as [|x l Hx _ IH]; [reflexivity|].
  rewrite !filter_cons, IH.
  destruct (decide (P x)) as [HP|HP], (decide (Q x)) as [HQ|HQ];
    try reflexivity; exfalso; tauto.
Qed.

Lemma filter_False {A : Type} (l : list A) : filter (fun _ => False) l = [].
Proof.
  induction l as [|x l IH]; [reflexivity|].
  rewrite filter_cons, decide_False by tauto. exact IH.
Qed.

Lemma length_filter_fmap {A B : Type} (f : A -> B) (P : B -> Prop)
    `{!forall y, Decision (P y)} (l : list A) :
  length (filter P (f <$> l)) = length (filter (fun x => P (f x)) l).
Proof.
  induction l as [|x l IH]; [reflexivity|].
  rewrite fmap_cons, !filter_cons.
  destruct (decide (P (f x))); cbn [length]; rewrite IH; reflexivity.
Qed.

Lemma compatible_succ (n : nat) (list_of_qubits : list Z) (i : Z) :
  compatible (Z.of_nat (S n)) list_of_qubits i
  = compatible (Z.of_nat n) list_of_qubits i
    && implb (Z.testbit i (Z.of_nat n)) (odd_qubit list_of_qubits (Z.of_nat n)).
Proof.
  unfold compatible. rewrite range_succ, forallb_app. cbn [forallb].
  rewrite andb_true_r. reflexivity.
Qed.

Lemma testbit_below_pow2 (n i : Z) :
  0 <= n -> 0 <= i < 2 ^ n -> Z.testbit i n = false.
Proof.
  intros Hn Hi. apply Z.testbit_false; [exact Hn|].
  rewrite Z.div_small by exact Hi. reflexivity.
Qed.

Lemma testbit_add_pow2_high (n i : Z) :
  0 <= n -> 0 <= i < 2 ^ n -> Z.testbit (i + 2 ^ n) n = true.
Proof.
  intros Hn Hi. apply Z.testbit_true; [exact Hn|].
  replace (i + 2 ^ n) with (i + 1 * 2 ^ n) by lia.
  rewrite Z.div_add by lia. rewrite Z.div_small by exact Hi. reflexivity.
Qed.

Lemma testbit_add_pow2_low (n i q : Z) :
  0 <= q < n -> Z.testbit (i + 2 ^ n) q = Z.testbit i q.
Proof.
  intros Hq.
  rewrite <- (Z.mod_pow2_bits_low (i + 2 ^ n) n q) by lia.
  rewrite <- (Z.mod_pow2_bits_low i n q) by lia.
  replace (i + 2 ^ n) with (i + 1 * 2 ^ n) by lia.
  rewrite Z_mod_plus_full. reflexivity.
Qed.

Lemma compatible_add_pow2 (n : Z) (list_of_qubits : list Z) (i : Z) :
  compatible n list_of_qubits (i + 2 ^ n) = compatible n list_of_qubits i.
Proof.
  unfold compatible. apply eq_iff_eq_true. rewrite !forallb_forall.
  split; intros H q Hin; specialize (H q Hin);
    apply list_elem_of_In, elem_of_range in Hin.
  - rewrite testbit_add_pow2_low in H by exact Hin. exact H.
  - rewrite testbit_add_pow2_low by exact Hin. exact H.
Qed.

Lemma odd_qubits_succ (n : nat) (list_of_qubits : list Z) :
  odd_qubits (Z.of_nat (S n)) list_of_qubits
  = odd_qubits (Z.of_nat n) list_of_qubits
    + (if odd_qubit list_of_qubits (Z.of_nat n) then 1 else 0).
Proof.
  unfold odd_qubits. rewrite range_succ, filter_app, length_app, filter_cons.
  destruct (odd_qubit list_of_qubits (Z.of_nat n));
    [rewrite decide_True by reflexivity|rewrite decide_False by discriminate];
    cbn [filter list_filter length]; lia.
Qed.

(** There are [2**k] basis states whose 1-bits all lie on odd qubits. *)
Lemma compatible_states (list_of_qubits : list Z) (n : nat) :
  Z.of_nat (length (filter (fun i => compatible (Z.of_nat n) list_of_qubits i = true)
                      (range (2 ^ Z.of_nat n))))
  = 2 ^ odd_qubits (Z.of_nat n) list_of_qubits.
Proof.
  induction n as [|n IH]; [reflexivity|].
  assert (Hpow : 0 < 2 ^ Z.of_nat n) by (apply Z.pow_pos_nonneg; lia).
  rewrite Nat2Z.inj_succ, Z.pow_succ_r by lia. rewrite <- Nat2Z.inj_succ.
  rewrite range_double by lia.
  rewrite filter_app, length_app, length_filter_fmap, Nat2Z.inj_add.
  rewrite odd_qubits_succ.
  rewrite (filter_ext_Forall _ (fun i => compatible (Z.of_nat n) list_of_qubits i = true)
             (range (2 ^ Z.of_nat n))).
  2:{ apply Forall_forall. intros i Hi%elem_of_range.
      rewrite compatible_succ, testbit_below_pow2 by lia.
      cbn [implb]. rewrite andb_true_r. reflexivity. }
  rewrite IH.
  destruct (odd_qubit list_of_qubits (Z.of_nat n)) eqn:Hodd.
  - rewrite (filter_ext_Forall _
               (fun i => compatible (Z.of_nat n) list_of_qubits i = true)
               (range (2 ^ Z.of_nat n))).
    2:{ apply Forall_forall. intros i Hi%elem_of_range.
        rewrite compatible_succ, compatible_add_pow2, Hodd, implb_true_r, andb_true_r.
        reflexivity. }
    rewrite IH, Z.pow_add_r by (unfold odd_qubits; lia). lia.
  - rewrite (filter_ext_Forall _ (fun _ => False) (range (2 ^ Z.of_nat n))).
    2:{ apply Forall_forall. intros i Hi%elem_of_range.
        rewrite compatible_succ, testbit_add_pow2_high, Hodd by lia.
        cbn [implb]. rewrite andb_false_r. split; [discriminate|tauto]. }
    rewrite filter_False, !Z.add_0_r. reflexivity.
Qed.

(** X8.  For a number of shots from 0 to below [2**53], the counts the
    call returns add up to [2**k * k * (shots // 2**(1+k))], [k] being the
    number of qubits that appear an odd number of times: the total is
    [shots] for [k = 2] and [shots] a multiple of 8, and it is 0 for
    [k = 0]. *)
Theorem run_hadamard_simulator_total_counts (number_of_qubits : Z)
    (list_of_qubits : list Z) (shots : Z) :
  0 <= number_of_qubits ->
  valid_qubits number_of_qubits list_of_qubits ->
  0 <= shots < 2 ^ 53 ->
  exists result,
    run_hadamard_simulator number_of_qubits list_of_qubits shots = Returns result
    /\ sum_counts result
       = 2 ^ odd_qubits number_of_qubits list_of_qubits
         * (odd_qubits number_of_qubits list_of_qubits
            * (shots / 2 ^ (1 + odd_qubits number_of_qubits list_of_qubits))).
Proof.
  intros Hn Hv Hshots. eexists.
  split; [apply run_hadamard_simulator_counts; assumption|].
  unfold entry.
  rewrite (sum_counts_indicator (compatible number_of_qubits list_of_qubits)).
  pose proof (compatible_states list_of_qubits (Z.to_nat number_of_qubits)) as Hc.
  rewrite Z2Nat.id in Hc by exact Hn. rewrite Hc. lia.
Qed.

Lemma run_hadamard_simulator_total_counts_witness :
  0 <= 3 /\ valid_qubits 3 [0; 1; 2] /\ 0 <= 1024 < 2 ^ 53
  /\ exists result,
       run_hadamard_simulator 3 [0; 1; 2] 1024 = Returns result
       /\ sum_counts result = 1536.
Proof.
  assert (H0 : 0 <= 3) by lia.
  assert (Hv : valid_qubits 3 [0; 1; 2])
    by (unfold valid_qubits; repeat constructor; lia).
  assert (Hs : 0 <= 1024 < 2 ^ 53) by (split; [lia|reflexivity]).
  split; [exact H0|]. split; [exact Hv|]. split; [exact Hs|].
  destruct (run_hadamard_simulator_total_counts 3 [0; 1; 2] 1024 H0 Hv Hs)
    as (result & Hrun & Hsum).
  exists result. split; [exact Hrun|]. rewrite Hsum. reflexivity.
Defined.

(** ** The number of shots *)

Lemma run_hadamard_simulator_inv (number_of_qubits : Z)
    (list_of_qubits : list Z) (shots : Z) (result : list Z) :
  0 <= number_of_qubits ->
  valid_qubits number_of_qubits list_of_qubits ->
  run_hadamard_simulator number_of_qubits list_of_qubits shots = Returns result ->
  exists t,
    (odd_qubits number_of_qubits list_of_qubits <> 0 ->
     int_truediv_pow2 shots (1 + odd_qubits number_of_qubits list_of_qubits)
     = Returns t)
    /\ result = entry number_of_qubits list_of_qubits t
                <$> range (2 ^ number_of_qubits).
Proof.
  intros Hn Hv Hrun.
  rewrite run_hadamard_simulator_closed_form in Hrun by assumption.
  destruct (Z.eqb_spec (odd_qubits number_of_qubits list_of_qubits) 0) as [Hk|Hk].
  - exists 0. split; [contradiction|congruence].
  - destruct (int_truediv_pow2 _ _) as [t|]; [|discriminate Hrun].
    exists t. cbn [bind] in Hrun. split; [reflexivity|congruence].
Qed.

Lemma int_truediv_pow2_opp (a e : Z) :
  int_truediv_pow2 (- a) e
  = let! t := int_truediv_pow2 a e in Returns (- t).
Proof.
  unfold int_truediv_pow2. rewrite Z.abs_opp, Z.sgn_opp.
  destruct (2 ^ (1024 + e) <=? round_to_53_bits (Z.abs a)); cbn [bind];
    [reflexivity|]. f_equal. lia.
Qed.

Lemma round_to_53_bits_ge (a m : Z) :
  0 <= m -> 2 ^ m <= a -> 2 ^ m <= round_to_53_bits a.
Proof.
  intros Hm Ha. unfold round_to_53_bits.
  assert (Hpos : 0 < a) by (pose proof (Z.pow_pos_nonneg 2 m); lia).
  destruct (Z.leb_spec (Z.log2 a + 1 - 53) 0) as [_|Hs]; [exact Ha|].
  set (s := Z.log2 a + 1 - 53) in *.
  rewrite Z.shiftl_mul_pow2, Z.shiftr_div_pow2 by lia.
  assert (HmL : m <= Z.log2 a) by (apply Z.log2_le_pow2; lia).
  assert (HL : 2 ^ Z.log2 a <= a) by (apply Z.log2_spec; lia).
  assert (Hps : 0 < 2 ^ s) by (apply Z.pow_pos_nonneg; lia).
  assert (Hq : 2 ^ 52 <= a / 2 ^ s).
  { replace (2 ^ 52) with (2 ^ 52 * 2 ^ s / 2 ^ s) by (apply Z.div_mul; lia).
    apply Z.div_le_mono; [lia|].
    rewrite <- Z.pow_add_r by lia. replace (52 + s) with (Z.log2 a) by lia.
    exact HL. }
  assert (HmLs : 2 ^ m <= 2 ^ 52 * 2 ^ s).
  { rewrite <- Z.pow_add_r by lia. apply Z.pow_le_mono_r; lia. }
  assert (Hmul : 2 ^ 52 * 2 ^ s <= a / 2 ^ s * 2 ^ s)
    by (apply Z.mul_le_mono_nonneg_r; lia).
  destruct (_ || _); nia.
Qed.

Lemma no_odd_qubit_zeros (number_of_qubits : Z) (list_of_qubits : list Z)
    (shots : Z) :
  0 <= number_of_qubits ->
  valid_qubits number_of_qubits list_of_qubits ->
  (forall q, 0 <= q < number_of_qubits -> Z.even (count q list_of_qubits) = true) ->
  run_hadamard_simulator number_of_qubits list_of_qubits shots
  = Returns (list_mul 0 (2 ^ number_of_qubits)).
Proof.
  intros Hn Hv Heven.
  assert (Hk : odd_qubits number_of_qubits list_of_qubits = 0).
  { unfold odd_qubits.
    rewrite (filter_ext_Forall _ (fun _ => False) (range number_of_qubits)).
    - rewrite filter_False. reflexivity.
    - apply Forall_forall. intros q Hq%elem_of_range. unfold odd_qubit.
      rewrite <- Z.negb_even, Heven by exact Hq. split; [discriminate|tauto]. }
  rewrite (run_hadamard_simulator_entries _ _ _ 0 Hn Hv) by (intros Hne; contradiction).
  f_equal. unfold list_mul. rewrite <- (length_range (2 ^ number_of_qubits)).
  apply const_fmap. intros i x _. unfold entry. rewrite Hk.
  destruct (compatible _ _ _); reflexivity.
Qed.

(** X9.  When no qubit appears an odd number of times (no Hadamard
    gate at all, or each one repeated an even number of times), every
    count is 0, the count of the state 0 included, and that for any number
    of shots, since the division is never reached. *)
Theorem run_hadamard_simulator_no_odd_qubit (number_of_qubits : Z)
    (list_of_qubits : list Z) (shots : Z) :
  0 <= number_of_qubits ->
  valid_qubits number_of_qubits list_of_qubits ->
  (forall q, 0 <= q < number_of_qubits -> Z.even (count q list_of_qubits) = true) ->
  exists result,
    run_hadamard_simulator number_of_qubits list_of_qubits shots = Returns result
    /\ Z.of_nat (length result) = 2 ^ number_of_qubits
    /\ Forall (fun c => c = 0) result.
Proof.
  intros Hn Hv Heven. eexists.
  split; [apply no_odd_qubit_zeros; assumption|]. unfold list_mul. split.
  - rewrite length_replicate. apply Z2Nat.id, Z.pow_nonneg. lia.
  - apply Forall_replicate. reflexivity.
Qed.

Lemma run_hadamard_simulator_no_odd_qubit_witness :
  0 <= 2 /\ valid_qubits 2 [1; 0; 1; 0]
  /\ exists result,
       run_hadamard_simulator 2 [1; 0; 1; 0] (2 ^ 2000) = Returns result
       /\ Forall (fun c => c = 0) result.
Proof.
  assert (H0 : 0 <= 2) by lia.
  assert (Hv : valid_qubits 2 [1; 0; 1; 0])
    by (unfold valid_qubits; repeat constructor; lia).
  split; [exact H0|]. split; [exact Hv|].
  destruct (run_hadamard_simulator_no_odd_qubit 2 [1; 0; 1; 0] (2 ^ 2000) H0 Hv)
    as (result & Hrun & _ & Hzero).
  - intros q Hq. assert (Hcases : q = 0 \/ q = 1) by lia.
    destruct Hcases as [->| ->]; reflexivity.
  - exists result. split; [exact Hrun|exact Hzero].
Defined.

(** X10.  The number of shots is not checked: a negative number is
    accepted, and since [int] truncates towards zero the counts for
    [-shots] are the counts for [shots] negated. *)
Theorem run_hadamard_simulator_negative_shots (number_of_qubits : Z)
    (list_of_qubits : list Z) (shots : Z) (result : list Z) :
  0 <= number_of_qubits ->
  valid_qubits number_of_qubits list_of_qubits ->
  run_hadamard_simulator number_of_qubits list_of_qubits shots = Returns result ->
  run_hadamard_simulator number_of_qubits list_of_qubits (- shots)
  = Returns (Z.opp <$> result).
Proof.
  intros Hn Hv Hrun.
  destruct (run_hadamard_simulator_inv _ _ _ _ Hn Hv Hrun) as (t & Ht & ->).
  rewrite (run_hadamard_simulator_entries _ _ _ (- t) Hn Hv).
  - f_equal. rewrite <- list_fmap_compose. apply list_fmap_ext.
    intros j i _. unfold entry. simpl.
    destruct (compatible _ _ _); lia.
  - intros Hk. rewrite int_truediv_pow2_opp, (Ht Hk). reflexivity.
Qed.

Lemma run_hadamard_simulator_negative_shots_witness :
  0 <= 1 /\ valid_qubits 1 [0]
  /\ run_hadamard_simulator 1 [0] 1023 = Returns [255; 255]
  /\ run_hadamard_simulator 1 [0] (- 1023) = Returns [-255; -255].
Proof.
  assert (H0 : 0 <= 1) by lia.
  assert (Hv : valid_qubits 1 [0]) by (unfold valid_qubits; repeat constructor; lia).
  assert (Hrun : run_hadamard_simulator 1 [0] 1023 = Returns [255; 255])
    by (vm_compute; reflexivity).
  split; [exact H0|]. split; [exact Hv|]. split; [exact Hrun|].
  apply (run_hadamard_simulator_negative_shots 1 [0] 1023 [255; 255] H0 Hv Hrun).
Defined.

(** X11.  With at least one qubit that appears an odd number of times,
    [k] of them in all, a number of shots of [2**(1025+k)] or more in
    absolute value makes the call raise [OverflowError]: the quotient
    [shots / 2**(1+k)] is too large for a float. *)
Theorem run_hadamard_simulator_OverflowError (number_of_qubits : Z)
    (list_of_qubits : list Z) (shots : Z) :
  0 <= number_of_qubits ->
  valid_qubits number_of_qubits list_of_qubits ->
  odd_qubits number_of_qubits list_of_qubits <> 0 ->
  2 ^ (1025 + odd_qubits number_of_qubits list_of_qubits) <= Z.abs shots ->
  run_hadamard_simulator number_of_qubits list_of_qubits shots
  = Raises OverflowError.
Proof.
  intros Hn Hv Hk Hshots.
  apply run_hadamard_simulator_raises; try assumption.
  unfold int_truediv_pow2.
  assert (H0k : 0 <= odd_qubits number_of_qubits list_of_qubits)
    by (unfold odd_qubits; lia).
  replace (1024 + (1 + odd_qubits number_of_qubits list_of_qubits))
    with (1025 + odd_qubits number_of_qubits list_of_qubits) by lia.
  pose proof (round_to_53_bits_ge (Z.abs shots)
                (1025 + odd_qubits number_of_qubits list_of_qubits)
                ltac:(lia) Hshots) as Hge.
  destruct (Z.leb_spec (2 ^ (1025 + odd_qubits number_of_qubits list_of_qubits))
              (round_to_53_bits (Z.abs shots))) as [_|?]; [reflexivity|lia].
Qed.

Lemma run_hadamard_simulator_OverflowError_witness :
  0 <= 1 /\ valid_qubits 1 [0] /\ odd_qubits 1 [0] <> 0
  /\ 2 ^ (1025 + odd_qubits 1 [0]) <= Z.abs (- 2 ^ 1026)
  /\ run_hadamard_simulator 1 [0] (- 2 ^ 1026) = Raises OverflowError.
Proof.
  assert (H0 : 0 <= 1) by lia.
  assert (Hv : valid_qubits 1 [0]) by (unfold valid_qubits; repeat constructor; lia).
  assert (Hk : odd_qubits 1 [0] <> 0) by (vm_compute; discriminate).
  assert (Hs : 2 ^ (1025 + odd_qubits 1 [0]) <= Z.abs (- 2 ^ 1026))
    by (vm_compute; discriminate).
  split; [exact H0|]. split; [exact Hv|]. split; [exact Hk|]. split; [exact Hs|].
  apply (run_hadamard_simulator_OverflowError 1 [0] (- 2 ^ 1026) H0 Hv Hk Hs).
Defined.

(** ** The backend: which error, empty dictionaries, several experiments *)

Lemma instruction_loop_app (operations operations' : list QobjInstruction) :
  forall list_of_qubits,
    instruction_loop (operations ++ operations') list_of_qubits
    = let! l := instruction_loop operations list_of_qubits in
      instruction_loop operations' l.
Proof.
  induction operations as [|operation rest IH]; intros l0; [reflexivity|].
  cbn [app instruction_loop].
  destruct (truthy (conditional operation)); [reflexivity|].
  destruct (negb (bool_decide (name operation = "h"))).
  - destruct (bool_decide (name operation = "measure")); [apply IH|reflexivity].
  - destruct (getitem (qubits operation) 0) as [q|]; [|reflexivity].
    cbn [bind]. apply IH.
Qed.

Lemma instruction_loop_stops (operation : QobjInstruction)
    (post : list QobjInstruction) (list_of_qubits : list Z) :
  unsupported operation ->
  instruction_loop (operation :: post) list_of_qubits
  = Raises (NameError "QiskitError").
Proof.
  intros Hu. cbn [instruction_loop].
  destruct (truthy (conditional operation)) eqn:Hc; [reflexivity|].
  destruct Hu as [Hu|[Hh Hm]]; [congruence|].
  rewrite bool_decide_false by exact Hh. cbn [negb].
  rewrite bool_decide_false by exact Hm. reflexivity.
Qed.

(** X12.  The first instruction [run] rejects ends the call, and the
    exception is a [NameError]: when the instructions of the first circuit
    are accepted up to an instruction whose [conditional] attribute is
    true or whose name is neither ['h'] nor ['measure'], [run] raises
    [NameError] for the name [QiskitError], which the notebook never
    imports; the two cases give the same exception, no message is
    produced, and nothing after that instruction is looked at. *)
Theorem run_first_unsupported (self : HadamardSimulator) (qobj : Qobj)
    (circuit : QobjExperiment) (rest : list QobjExperiment)
    (pre post : list QobjInstruction) (operation : QobjInstruction) :
  experiments qobj = circuit :: rest ->
  instructions circuit = pre ++ operation :: post ->
  Forall (fun operation => ~ unsupported operation) pre ->
  Forall (fun operation => name operation = "h" -> is_Some (head (qubits operation)))
    pre ->
  unsupported operation ->
  HadamardSimulator_.run self qobj = Raises (NameError "QiskitError").
Proof.
  intros Hexp Hins Hpre Hheads Hu. unfold HadamardSimulator_.run.
  rewrite Hexp. cbn [experiment_loop].
  rewrite Hins, instruction_loop_app, instruction_loop_returns by assumption.
  cbn [bind]. rewrite instruction_loop_stops by exact Hu. reflexivity.
Qed.

Lemma run_first_unsupported_witness :
  unsupported conditional_x
  /\ HadamardSimulator_.run (HadamardSimulator_.__init__ None) conditional_x_qobj
     = Raises (NameError "QiskitError").
Proof.
  assert (Hu : unsupported conditional_x) by (left; reflexivity).
  split; [exact Hu|].
  apply (run_first_unsupported (HadamardSimulator_.__init__ None) conditional_x_qobj
           conditional_x_circuit [] [gate "h" 0] [gate "cx" 0] conditional_x
           eq_refl eq_refl).
  - constructor; [|constructor].
    intros [Hc|[Hh _]]; [discriminate Hc|]. apply Hh. reflexivity.
  - constructor; [|constructor]. intros _. exists 0. reflexivity.
  - exact Hu.
Defined.

(** X13.  The circuits are simulated one after the other, each before
    the next one is looked at: when the first circuit has only accepted
    instructions but a Hadamard gate on a qubit it does not have, [run]
    raises [IndexError], whatever the circuits after it contain. *)
Theorem run_first_circuit_IndexError (self : HadamardSimulator) (qobj : Qobj)
    (circuit : QobjExperiment) (rest : list QobjExperiment) :
  experiments qobj = circuit :: rest ->
  0 <= config_n_qubits circuit ->
  Forall (fun operation => ~ unsupported operation) (instructions circuit) ->
  Forall (fun operation => name operation = "h" -> is_Some (head (qubits operation)))
    (instructions circuit) ->
  Exists (fun q => q < - config_n_qubits circuit \/ config_n_qubits circuit <= q)
    (hadamard_targets (instructions circuit)) ->
  HadamardSimulator_.run self qobj = Raises IndexError.
Proof.
  intros Hexp Hn Hsup Hheads Hex. unfold HadamardSimulator_.run.
  rewrite Hexp. cbn [experiment_loop].
  rewrite instruction_loop_returns by assumption. cbn [bind app].
  unfold simulate_circuit. unfold run_hadamard_simulator.
  rewrite parity_loop_out_of_range; [reflexivity|].
  unfold list_mul. rewrite length_replicate, Z2Nat.id by exact Hn.
  eapply Exists_impl; [exact Hex|]. simpl. intros q Hq. lia.
Qed.

Lemma run_first_circuit_IndexError_witness :
  Exists (fun q => q < - 1 \/ 1 <= q) (hadamard_targets (instructions out_of_range_circuit))
  /\ HadamardSimulator_.run (HadamardSimulator_.__init__ None) two_circuit_qobj
     = Raises IndexError.
Proof.
  assert (Hex : Exists (fun q => q < - 1 \/ 1 <= q)
                  (hadamard_targets (instructions out_of_range_circuit)))
    by (apply Exists_cons_hd; right; lia).
  split; [exact Hex|].
  apply (run_first_circuit_IndexError (HadamardSimulator_.__init__ None)
           two_circuit_qobj out_of_range_circuit [x_circuit] eq_refl).
  - simpl. lia.
  - constructor; [|constructor].
    intros [Hc|[Hh _]]; [discriminate Hc|]. apply Hh. reflexivity.
  - constructor; [|constructor]. intros _. exists 1. reflexivity.
  - exact Hex.
Defined.

Lemma nonzero_counts_zeros (counts : list Z) (d : gmap string Z) :
  Forall (fun c => c = 0) counts -> nonzero_counts counts d -> d = ∅.
Proof.
  intros Hzero [Hin Hkeys]. apply map_eq. intros key. rewrite lookup_empty.
  destruct (d !! key) as [v|] eqn:Hkey; [|reflexivity].
  destruct (Hkeys key) as (i & Hi & ->); [eexists; exact Hkey|].
  destruct (lookup_lt_is_Some_2 counts i Hi) as [c Hc].
  rewrite Forall_lookup in Hzero. rewrite (Hzero i c Hc) in Hc.
  rewrite (Hin i 0 Hc) in Hkey. discriminate Hkey.
Qed.

(** X14.  A circuit in which no qubit gets an odd number of Hadamard
    gates (one that only measures, for instance) is recorded with an empty
    dictionary of counts, although all its shots measure the state 0: in
    the result of a job [run] returns, the record of every such circuit
    with Hadamard gates on its own qubits has no count at all. *)
Theorem run_no_odd_qubit_empty_counts (self : HadamardSimulator) (qobj : Qobj)
    (job : HadamardJob) :
  HadamardSimulator_.run self qobj = Returns job ->
  exists res,
    _result job = Some res
    /\ Forall2
         (fun circuit er =>
            well_formed_circuit circuit ->
            (forall q, 0 <= q < config_n_qubits circuit ->
                       Z.even (count q (hadamard_targets (instructions circuit))) = true) ->
            er_counts er = ∅ /\ er_shots er = config_shots qobj)
         (experiments qobj) (results res).
Proof.
  unfold HadamardSimulator_.run. intros H.
  destruct (experiment_loop qobj (experiments qobj) []) as [rs|] eqn:Hloop;
    [|discriminate H].
  cbn [bind] in H. injection H as <-.
  apply experiment_loop_records in Hloop as (_ & new & -> & Hnew).
  exists (Result_of new). split; [reflexivity|]. cbn [results Result_of app].
  eapply Forall2_impl; [exact Hnew|]. simpl.
  intros circuit er (_ & _ & Hshots & counts & Hrun & Hnz) Hwf Heven.
  split; [|exact Hshots].
  rewrite no_odd_qubit_zeros in Hrun;
    [|exact (proj1 Hwf)|apply hadamard_targets_valid, Hwf|exact Heven].
  injection Hrun as <-.
  apply (nonzero_counts_zeros _ _ (Forall_replicate _ _ _ eq_refl) Hnz).
Qed.

Lemma run_no_odd_qubit_empty_counts_witness :
  HadamardSimulator_.run (HadamardSimulator_.__init__ None) measure_only_qobj
  = Returns measure_only_job
  /\ exists res,
       _result measure_only_job = Some res
       /\ Forall2
            (fun circuit er =>
               well_formed_circuit circuit ->
               (forall q, 0 <= q < config_n_qubits circuit ->
                          Z.even (count q (hadamard_targets (instructions circuit)))
                          = true) ->
               er_counts er = ∅ /\ er_shots er = config_shots measure_only_qobj)
            (experiments measure_only_qobj) (results res).
Proof.
  assert (Hrun : HadamardSimulator_.run (HadamardSimulator_.__init__ None)
                   measure_only_qobj = Returns measure_only_job)
    by (vm_compute; reflexivity).
  split; [exact Hrun|].
  apply (run_no_odd_qubit_empty_counts _ _ _ Hrun).
Defined.

Lemma experiment_loop_shots (qobj qobj' : Qobj) (circuits : list QobjExperiment) :
  config_shots qobj = config_shots qobj' ->
  forall experiment_results,
    experiment_loop qobj circuits experiment_results
    = experiment_loop qobj' circuits experiment_results.
Proof.
  intros Hshots. induction circuits as [|circuit rest IH]; intros acc; [reflexivity|].
  cbn [experiment_loop]. unfold simulate_circuit. rewrite Hshots.
  destruct (instruction_loop _ _) as [l|]; [|reflexivity]. cbn [bind].
  destruct (run_hadamard_simulator _ _ _) as [counts|]; [|reflexivity]. cbn [bind].
  destruct (format_loop _ _ _) as [fc|]; [|reflexivity]. cbn [bind].
  apply IH.
Qed.

Lemma experiment_loop_app (qobj : Qobj) (circuits circuits' : list QobjExperiment) :
  forall experiment_results,
    experiment_loop qobj (circuits ++ circuits') experiment_results
    = let! rs := experiment_loop qobj circuits experiment_results in
      experiment_loop qobj circuits' rs.
Proof.
  induction circuits as [|circuit rest IH]; intros acc; [reflexivity|].
  cbn [app experiment_loop].
  destruct (instruction_loop _ _) as [l|]; [|reflexivity]. cbn [bind].
  destruct (simulate_circuit _ _ _) as [er|]; [|reflexivity]. cbn [bind].
  apply IH.
Qed.

Lemma experiment_loop_acc (qobj : Qobj) (circuits : list QobjExperiment) :
  forall experiment_results,
    experiment_loop qobj circuits experiment_results
    = let! new := experiment_loop qobj circuits [] in
      Returns (experiment_results ++ new).
Proof.
  induction circuits as [|circuit rest IH]; intros acc.
  - simpl. rewrite app_nil_r. reflexivity.
  - cbn [experiment_loop].
    destruct (instruction_loop _ _) as [l|]; [|reflexivity]. cbn [bind].
    destruct (simulate_circuit _ _ _) as [er|]; [|reflexivity]. cbn [bind].
    rewrite (IH (acc ++ [er])), (IH ([] ++ [er])).
    destruct (experiment_loop qobj rest []) as [new|]; [|reflexivity].
    cbn [bind app]. rewrite <- app_assoc. reflexivity.
Qed.

(** X15.  The experiments of a qobj are handled independently and in
    order: when [run] returns for the experiments [a] and for the
    experiments [b] with the same number of shots, it returns for [a]
    followed by [b], and the results are those for [a] followed by those
    for [b]. *)
Theorem run_experiments_app (self : HadamardSimulator) (shots : Z)
    (a b : list QobjExperiment) (job_a job_b : HadamardJob) :
  HadamardSimulator_.run self {| experiments := a; config_shots := shots |}
  = Returns job_a ->
  HadamardSimulator_.run self {| experiments := b; config_shots := shots |}
  = Returns job_b ->
  exists res_a res_b job,
    _result job_a = Some res_a
    /\ _result job_b = Some res_b
    /\ HadamardSimulator_.run self {| experiments := a ++ b; config_shots := shots |}
       = Returns job
    /\ _result job = Some (Result_of (results res_a ++ results res_b)).
Proof.
  unfold HadamardSimulator_.run. cbn [experiments]. intros Ha Hb.
  set (qa := {| experiments := a; config_shots := shots |}) in *.
  set (qb := {| experiments := b; config_shots := shots |}) in *.
  set (qab := {| experiments := a ++ b; config_shots := shots |}).
  destruct (experiment_loop qa a []) as [ra|] eqn:Hra; [|discriminate Ha].
  destruct (experiment_loop qb b []) as [rb|] eqn:Hrb; [|discriminate Hb].
  cbn [bind] in Ha, Hb. injection Ha as <-. injection Hb as <-.
  exists (Result_of ra), (Result_of rb). eexists.
  split; [reflexivity|]. split; [reflexivity|].
  rewrite experiment_loop_app.
  rewrite (experiment_loop_shots qab qa a eq_refl), Hra. cbn [bind].
  rewrite experiment_loop_acc, (experiment_loop_shots qab qb b eq_refl), Hrb.
  cbn [bind]. split; reflexivity.
Qed.

Lemma run_experiments_app_witness :
  HadamardSimulator_.run (HadamardSimulator_.__init__ None)
    {| experiments := experiments one_qubit_qobj; config_shots := 1024 |}
  = Returns one_qubit_job
  /\ HadamardSimulator_.run (HadamardSimulator_.__init__ None)
       {| experiments := experiments measure_only_qobj; config_shots := 1024 |}
     = Returns measure_only_job
  /\ exists job,
       HadamardSimulator_.run (HadamardSimulator_.__init__ None)
         {| experiments := experiments one_qubit_qobj ++ experiments measure_only_qobj;
            config_shots := 1024 |}
       = Returns job.
Proof.
  assert (Ha : HadamardSimulator_.run (HadamardSimulator_.__init__ None)
                 {| experiments := experiments one_qubit_qobj; config_shots := 1024 |}
               = Returns one_qubit_job) by (vm_compute; reflexivity).
  assert (Hb : HadamardSimulator_.run (HadamardSimulator_.__init__ None)
                 {| experiments := experiments measure_only_qobj;
                    config_shots := 1024 |}
               = Returns measure_only_job) by (vm_compute; reflexivity).
  split; [exact Ha|]. split; [exact Hb|].
  destruct (run_experiments_app _ _ _ _ _ _ Ha Hb) as (_ & _ & job & _ & _ & Hrun & _).
  exists job. exact Hrun.
Defined.

(** X16.  The configuration of the backend lists ['h'] and ['x'] as its
    basis gates, and [run] accepts only the first: a qobj with an
    instruction named after any other listed basis gate makes [run]
    raise. *)
Theorem run_rejects_listed_basis_gate (provider : option provider_ref)
    (qobj : Qobj) (g : string) :
  g ∈ cfg_basis_gates (_configuration (HadamardSimulator_.__init__ provider)) ->
  g <> "h" ->
  Exists (fun circuit => Exists (fun operation => name operation = g)
                           (instructions circuit)) (experiments qobj) ->
  g = "x" /\ raises (HadamardSimulator_.run (HadamardSimulator_.__init__ provider) qobj).
Proof.
  intros Hg Hh Hex. cbn in Hg.
  assert (Hx : g = "x").
  { apply elem_of_cons in Hg as [->|Hg]; [contradiction|].
    apply list_elem_of_singleton in Hg. exact Hg. }
  split; [exact Hx|]. apply run_unsupported_raises. unfold has_unsupported.
  eapply Exists_impl; [exact Hex|]. simpl. intros circuit Hc.
  eapply Exists_impl; [exact Hc|]. simpl. intros operation Hop.
  right. rewrite Hop, Hx. split; discriminate.
Qed.

Lemma run_rejects_listed_basis_gate_witness :
  "x" ∈ cfg_basis_gates (_configuration (HadamardSimulator_.__init__ None))
  /\ raises (HadamardSimulator_.run (HadamardSimulator_.__init__ None) two_circuit_qobj).
Proof.
  assert (Hg : "x" ∈ cfg_basis_gates
                       (_configuration (HadamardSimulator_.__init__ None)))
    by (right; left).
  split; [exact Hg|].
  apply (run_rejects_listed_basis_gate None two_circuit_qobj "x" Hg).
  - discriminate.
  - apply Exists_cons_tl, Exists_cons_hd, Exists_cons_hd. reflexivity.
Defined.

(** ** How many counts are not zero *)

Lemma nonzero_counts_unique (counts : list Z) (d d' : gmap string Z) :
  nonzero_counts counts d -> nonzero_counts counts d' -> d = d'.
Proof.
  intros [Hin Hkeys] [Hin' Hkeys']. apply map_eq. intros key.
  destruct (d !! key) as [v|] eqn:Hkey.
  - destruct (Hkeys key) as (i & Hi & ->); [eexists; exact Hkey|].
    destruct (lookup_lt_is_Some_2 counts i Hi) as [c Hc].
    rewrite (Hin i c Hc) in Hkey. rewrite (Hin' i c Hc). symmetry. exact Hkey.
  - destruct (d' !! key) as [v'|] eqn:Hkey'; [|reflexivity].
    destruct (Hkeys' key) as (i & Hi & ->); [eexists; exact Hkey'|].
    destruct (lookup_lt_is_Some_2 counts i Hi) as [c Hc].
    rewrite (Hin i c Hc) in Hkey. rewrite (Hin' i c Hc) in Hkey'. congruence.
Qed.

Lemma format_loop_size (counts : list Z) :
  forall (len a : nat) (formatted_counts : gmap string Z),
    (a + len <= length counts)%nat ->
    (forall j, (a <= j)%nat -> formatted_counts !! hex (Z.of_nat j) = None) ->
    exists formatted_counts',
      format_loop counts (Z.of_nat <$> seq a len) formatted_counts
      = Returns formatted_counts'
      /\ size formatted_counts'
         = (size formatted_counts
            + length (filter (fun c : Z => c <> 0%Z) (take len (drop a counts))))%nat.
Proof.
  induction len as [|len IH]; intros a fc Ha Hfresh.
  - exists fc. split; [reflexivity|]. rewrite take_0. simpl. lia.
  - destruct (lookup_lt_is_Some_2 counts a) as [c Hc]; [lia|].
    cbn [seq fmap list_fmap format_loop].
    rewrite (getitem_lookup counts (Z.of_nat a) c (Nat2Z.is_nonneg a))
      by (rewrite Nat2Z.id; exact Hc).
    cbn [bind]. rewrite (drop_S _ _ _ Hc). cbn [take]. rewrite filter_cons.
    destruct (Z.eqb_spec c 0) as [Hz|Hnz]; cbn [negb bind].
    + rewrite decide_False by (intros Hne; apply Hne, Hz).
      apply IH; [lia|]. intros j Hj. apply Hfresh. lia.
    + rewrite decide_True by exact Hnz.
      destruct (IH (S a) (<[hex (Z.of_nat a) := c]> fc)) as (fc' & Hrun & Hsize).
      * lia.
      * intros j Hj. rewrite lookup_insert_ne; [apply Hfresh; lia|].
        intros Heq. apply hex_inj in Heq; lia.
      * exists fc'. split; [exact Hrun|]. rewrite Hsize.
        rewrite map_size_insert_None by (apply Hfresh; lia).
        cbn [length]. lia.
Qed.

Lemma nonzero_counts_size (counts : list Z) (d : gmap string Z) :
  nonzero_counts counts d ->
  size d = length (filter (fun c => c <> 0) counts).
Proof.
  intros Hd.
  destruct (format_loop_size counts (length counts) 0 ∅ (Nat.le_refl _))
    as (fc & Hrun & Hsize); [intros; apply lookup_empty|].
  destruct (format_loop_nonzero_counts counts) as (fc' & Hrun' & Hfc').
  unfold range in Hrun'. rewrite Nat2Z.id, Hrun in Hrun'. injection Hrun' as <-.
  rewrite (nonzero_counts_unique _ _ _ Hd Hfc'), Hsize.
  rewrite map_size_empty, drop_0, firstn_all. reflexivity.
Qed.

Lemma nonzero_entries (number_of_qubits : Z) (list_of_qubits : list Z) (t : Z) :
  0 <= number_of_qubits ->
  odd_qubits number_of_qubits list_of_qubits * t <> 0 ->
  Z.of_nat (length (filter (fun c => c <> 0)
                      (entry number_of_qubits list_of_qubits t
                       <$> range (2 ^ number_of_qubits))))
  = 2 ^ odd_qubits number_of_qubits list_of_qubits.
Proof.
  intros Hn Hkt. rewrite length_filter_fmap.
  pose proof (compatible_states list_of_qubits (Z.to_nat number_of_qubits)) as Hc.
  rewrite Z2Nat.id in Hc by exact Hn. rewrite <- Hc. do 2 f_equal.
  apply filter_ext_Forall, Forall_forall. intros i _. unfold entry.
  destruct (compatible _ _ _); split; intros H; try reflexivity; try exact Hkt;
    first [discriminate H|contradiction].
Qed.

(** X17.  The counts the call returns are all 0 or all equal to one
    value: the shots are spread evenly over the basis states that get
    any. *)
Theorem run_hadamard_simulator_uniform (number_of_qubits : Z)
    (list_of_qubits : list Z) (shots : Z) (result : list Z) :
  0 <= number_of_qubits ->
  valid_qubits number_of_qubits list_of_qubits ->
  run_hadamard_simulator number_of_qubits list_of_qubits shots = Returns result ->
  exists c, Forall (fun x => x = 0 \/ x = c) result.
Proof.
  intros Hn Hv Hrun.
  destruct (run_hadamard_simulator_inv _ _ _ _ Hn Hv Hrun) as (t & _ & ->).
  exists (odd_qubits number_of_qubits list_of_qubits * t).
  apply Forall_fmap, Forall_forall. intros i _. simpl. unfold entry.
  destruct (compatible _ _ _); auto.
Qed.

Lemma run_hadamard_simulator_uniform_witness :
  0 <= 4 /\ valid_qubits 4 [3; 1; 3; 2]
  /\ run_hadamard_simulator 4 [3; 1; 3; 2] 1024 = Returns notebook_counts
  /\ exists c, Forall (fun x => x = 0 \/ x = c) notebook_counts.
Proof.
  assert (H0 : 0 <= 4) by lia.
  assert (Hv : valid_qubits 4 [3; 1; 3; 2])
    by (unfold valid_qubits; repeat constructor; lia).
  assert (Hrun : run_hadamard_simulator 4 [3; 1; 3; 2] 1024 = Returns notebook_counts)
    by (vm_compute; reflexivity).
  split; [exact H0|]. split; [exact Hv|]. split; [exact Hrun|].
  apply (run_hadamard_simulator_uniform 4 [3; 1; 3; 2] 1024 notebook_counts H0 Hv Hrun).
Defined.

(** X18.  In the result of a job [run] returns, the dictionary of
    counts of a circuit with Hadamard gates on its own qubits, [k >= 1] of
    which get an odd number of gates, has exactly [2**k] keys when the
    number of shots is at least [2**(1+k)] and below [2**53]: one key per
    basis state whose 1-bits lie on those qubits, no two states sharing a
    key. *)
Theorem run_counts_size (self : HadamardSimulator) (qobj : Qobj)
    (job : HadamardJob) :
  HadamardSimulator_.run self qobj = Returns job ->
  exists res,
    _result job = Some res
    /\ Forall2
         (fun circuit er =>
            let k := odd_qubits (config_n_qubits circuit)
                       (hadamard_targets (instructions circuit)) in
            well_formed_circuit circuit ->
            1 <= k ->
            2 ^ (1 + k) <= config_shots qobj < 2 ^ 53 ->
            Z.of_nat (size (er_counts er)) = 2 ^ k)
         (experiments qobj) (results res).
Proof.
  unfold HadamardSimulator_.run. intros H.
  destruct (experiment_loop qobj (experiments qobj) []) as [rs|] eqn:Hloop;
    [|discriminate H].
  cbn [bind] in H. injection H as <-.
  apply experiment_loop_records in Hloop as (_ & new & -> & Hnew).
  exists (Result_of new). split; [reflexivity|]. cbn [results Result_of app].
  eapply Forall2_impl; [exact Hnew|]. simpl.
  intros circuit er (_ & _ & _ & counts & Hrun & Hnz) Hwf Hk Hshots.
  set (k := odd_qubits (config_n_qubits circuit)
              (hadamard_targets (instructions circuit))) in *.
  assert (Hpow : 0 < 2 ^ (1 + k)) by (apply Z.pow_pos_nonneg; lia).
  rewrite run_hadamard_simulator_counts in Hrun;
    [|exact (proj1 Hwf)|apply hadamard_targets_valid, Hwf|lia].
  injection Hrun as <-.
  rewrite (nonzero_counts_size _ _ Hnz).
  apply nonzero_entries; [exact (proj1 Hwf)|]. fold k.
  assert (Hq : 1 <= config_shots qobj / 2 ^ (1 + k)).
  { apply Z.div_le_lower_bound; lia. }
  nia.
Qed.

Lemma run_counts_size_witness :
  HadamardSimulator_.run (HadamardSimulator_.__init__ None) one_qubit_qobj
  = Returns one_qubit_job
  /\ exists res,
       _result one_qubit_job = Some res
       /\ Forall2
            (fun circuit er =>
               let k := odd_qubits (config_n_qubits circuit)
                          (hadamard_targets (instructions circuit)) in
               well_formed_circuit circuit ->
               1 <= k ->
               2 ^ (1 + k) <= config_shots one_qubit_qobj < 2 ^ 53 ->
               Z.of_nat (size (er_counts er)) = 2 ^ k)
            (experiments one_qubit_qobj) (results res).
Proof.
  assert (Hrun : HadamardSimulator_.run (HadamardSimulator_.__init__ None)
                   one_qubit_qobj = Returns one_qubit_job)
    by (vm_compute; reflexivity).
  split; [exact Hrun|].
  apply (run_counts_size _ _ _ Hrun).
Defined.

(** ** The order of the basis states *)

Lemma bits_value_bound (bs : list bool) :
  0 <= bits_value bs < 2 ^ Z.of_nat (length bs).
Proof.
  induction bs as [|b bs IH]; [simpl; lia|].
  cbn [bits_value length]. rewrite Nat2Z.inj_succ, Z.pow_succ_r by lia.
  destruct b; simpl Z.b2z; lia.
Qed.

Lemma bits_value_snoc (bs : list bool) (b : bool) :
  bits_value (bs ++ [b]) = 2 * bits_value bs + Z.b2z b.
Proof.
  induction bs as [|b' bs IH]; [simpl; lia|].
  cbn [app bits_value]. rewrite IH, length_app. cbn [length].
  rewrite Nat.add_1_r, Nat2Z.inj_succ, Z.pow_succ_r by lia. lia.
Qed.

Lemma bits_value_pad (k : nat) (bs : list bool) :
  bits_value (replicate k false ++ bs) = bits_value bs.
Proof. induction k as [|k IH]; [reflexivity|]. cbn. exact IH. Qed.

Lemma bits_value_msb (i : Z) : 0 <= i -> bits_value (bits_msb i) = i.
Proof.
  destruct i as [|p|p]; intros Hi; [reflexivity| |lia].
  simpl. induction p as [p IH|p IH|]; [| |reflexivity].
  - cbn [pos_bits]. rewrite reverse_cons, bits_value_snoc, IH by lia.
    simpl Z.b2z. lia.
  - cbn [pos_bits]. rewrite reverse_cons, bits_value_snoc, IH by lia.
    simpl Z.b2z. lia.
Qed.

Lemma pos_bits_length (p : positive) :
  2 ^ Z.of_nat (length (pos_bits p)) <= 2 * Z.pos p.
Proof.
  induction p as [p IH|p IH|]; [| |simpl; lia];
    cbn [pos_bits length]; rewrite Nat2Z.inj_succ, Z.pow_succ_r by lia; lia.
Qed.

Lemma bits_msb_length (n i : Z) :
  1 <= n -> 0 <= i < 2 ^ n -> Z.of_nat (length (bits_msb i)) <= n.
Proof.
  intros Hn Hi. destruct i as [|p|p]; [simpl; lia| |lia].
  simpl. rewrite length_reverse.
  destruct (Z.le_gt_cases (Z.of_nat (length (pos_bits p))) n) as [Hle|Hgt];
    [exact Hle|]. exfalso.
  pose proof (pos_bits_length p) as Hlen.
  assert (H2 : 2 ^ (n + 1) <= 2 ^ Z.of_nat (length (pos_bits p)))
    by (apply Z.pow_le_mono_r; lia).
  rewrite Z.pow_add_r in H2 by lia. lia.
Qed.

Lemma str_lt_digits (s t : list bool) :
  length s = length t ->
  str_lt (digit <$> s) (digit <$> t) = bool_decide (bits_value s < bits_value t).
Proof.
  revert t. induction s as [|a s IH]; intros [|b t] Hlen; try discriminate Hlen.
  - reflexivity.
  - injection Hlen as Hlen. cbn [fmap list_fmap str_lt bits_value].
    pose proof (bits_value_bound s) as Hs. pose proof (bits_value_bound t) as Ht.
    rewrite <- Hlen in *.
    destruct a, b; simpl digit; simpl Z.b2z; cbn.
    + rewrite (IH t Hlen). apply bool_decide_ext. lia.
    + symmetry. apply bool_decide_eq_false. lia.
    + symmetry. apply bool_decide_eq_true. lia.
    + rewrite (IH t Hlen). apply bool_decide_ext. lia.
Qed.

(** X19.  "Basis states are ordered lexicographically": for at least
    one qubit, the index of a basis state is smaller than that of another
    exactly when its string of binary digits with the last qubit first
    (the string the code builds before it reverses it) is the smaller of
    the two strings; the reversed string the code goes on with has
    [number_of_qubits] characters. *)
Theorem basis_states_lexicographic (number_of_qubits i j : Z) :
  1 <= number_of_qubits ->
  0 <= i < 2 ^ number_of_qubits ->
  0 <= j < 2 ^ number_of_qubits ->
  str_lt (zfill (format_b i) number_of_qubits) (zfill (format_b j) number_of_qubits)
  = bool_decide (i < j)
  /\ Z.of_nat (length (basis_state_of number_of_qubits i)) = number_of_qubits.
Proof.
  intros Hn Hi Hj.
  pose proof (bits_msb_length _ _ Hn Hi) as Hli.
  pose proof (bits_msb_length _ _ Hn Hj) as Hlj.
  unfold basis_state_of.
  rewrite !format_b_bits, !zfill_digits by lia. split.
  - rewrite <- (fmap_replicate digit _ false), <- (fmap_replicate digit _ false).
    rewrite <- !fmap_app, str_lt_digits.
    + rewrite !bits_value_pad, !bits_value_msb by lia. reflexivity.
    + rewrite !length_app, !length_replicate. lia.
  - rewrite length_reverse, length_app, length_replicate, length_fmap. lia.
Qed.

Lemma basis_states_lexicographic_witness :
  1 <= 2 /\ 0 <= 1 < 2 ^ 2 /\ 0 <= 2 < 2 ^ 2
  /\ str_lt (zfill (format_b 1) 2) (zfill (format_b 2) 2) = true
  /\ str_lt (basis_state_of 2 1) (basis_state_of 2 2) = false.
Proof.
  assert (Hn : 1 <= 2) by lia.
  assert (Hi : 0 <= 1 < 2 ^ 2) by (simpl; lia).
  assert (Hj : 0 <= 2 < 2 ^ 2) by (simpl; lia).
  split; [exact Hn|]. split; [exact Hi|]. split; [exact Hj|]. split.
  - rewrite (proj1 (basis_states_lexicographic 2 1 2 Hn Hi Hj)). reflexivity.
  - reflexivity.
Defined.

(** ** The provider *)

Lemma filter_backends_sdk_sublist (backends : list HadamardSimulator)
    (filters : option (HadamardSimulator -> bool)) (kw : unit) :
  filter_backends_sdk backends filters kw `sublist_of` backends.
Proof.
  destruct filters as [f|]; [|reflexivity]. simpl.
  induction backends as [|b backends IH]; [constructor|].
  simpl. destruct (f b); [apply sublist_skip|apply sublist_cons]; exact IH.
Qed.

(** X20.  Whatever its arguments, [backends] only narrows the
    provider's list, as long as [filter_backends] only narrows the list
    it is given: the backends returned are backends of the provider, in
    their order and at most as many; when [name] is a non-empty string
    each of them has that name; and the provider is left as it was. *)
Theorem backends_narrows {kwargs : Type}
    (filter_backends : list HadamardSimulator ->
                       option (HadamardSimulator -> bool) -> kwargs ->
                       list HadamardSimulator)
    (self : HadamardProvider) (name : option string)
    (filters : option (HadamardSimulator -> bool)) (kw : kwargs) :
  (forall backends f k, filter_backends backends f k `sublist_of` backends) ->
  (HadamardProvider_backends filter_backends self name filters kw).1
    `sublist_of` _backends self
  /\ (name_given name = true ->
      Forall (fun backend => Some (HadamardSimulator_.name backend) = name)
        (HadamardProvider_backends filter_backends self name filters kw).1)
  /\ (HadamardProvider_backends filter_backends self name filters kw).2 = self.
Proof.
  intros Hsub. unfold HadamardProvider_backends. cbn [fst snd].
  split; [|split; [|reflexivity]].
  - etrans; [apply Hsub|].
    destruct (name_given name); [apply sublist_filter|reflexivity].
  - intros Hname. rewrite Hname. apply Forall_forall. intros backend Hin.
    apply (sublist_subseteq _ _ (Hsub _ _ _)) in Hin.
    apply list_elem_of_filter in Hin as [Hb _]. exact Hb.
Qed.

Lemma backends_narrows_witness :
  (forall backends f k, filter_backends_sdk backends f k `sublist_of` backends)
  /\ (HadamardProvider_backends filter_backends_sdk HadamardProvider_init
        (Some "qasm_simulator") (Some (fun _ => true)) ()).1
     `sublist_of` _backends HadamardProvider_init.
Proof.
  split; [exact filter_backends_sdk_sublist|].
  apply (proj1 (backends_narrows filter_backends_sdk HadamardProvider_init
                  (Some "qasm_simulator") (Some (fun _ => true)) ()
                  filter_backends_sdk_sublist)).
Defined.
